(** * DAppNodeSDK: the compose policy validator

    A shallow embedding of [src/files/compose/validateDappnodeCompose.ts].

    The validator is TypeScript, but several of its rules inspect values whose
    run-time shape is not the one their type annotation says (the per-service
    value rule walks [Object.values] of a service and reads properties of
    whatever it finds).  The embedding therefore keeps the JavaScript view of
    the data below the top level: a decoded YAML/JSON tree of [value]s, with
    property reads, [Object.keys], [for ... of] and method calls that throw a
    [TypeError] exactly where the engine does.

    Strings are [string]s of 8-bit characters; a character stands for the
    code unit of the same number. *)

From Stdlib Require Import String Ascii List Bool Arith NArith ZArith Lia.
From Stdlib Require Import DecimalString.
Import ListNotations.

Open Scope string_scope.
Open Scope list_scope.

Set Warnings "-register-all".

(* ================================================================== *)
(** ** JavaScript values and the primitives the validator uses *)

Module JS.

(** A decoded YAML/JSON value.  Objects list their own enumerable
    properties in enumeration order. *)
Inductive value : Type :=
| VUndefined
| VNull
| VBool (b : bool)
| VNum (n : Z)
| VStr (s : string)
| VArr (items : list value)
| VObj (props : list (string * value)).

Definition object : Type := list (string * value).

(** The exceptions a rule can raise on its own; the aggregate rejection is
    raised by the orchestrator only. *)
Inductive TypeError : Type :=
| InvalidVersion (version : string) (* thrown by semver *)
| NullishAccess                     (* property of, or Object.keys/values of, undefined or null *)
| NotIterable                       (* for ... of over a value without an iterator *)
| NotAFunction.                     (* calling a method the value does not have *)

Inductive result (A : Type) : Type :=
| Ok (a : A)
| Throw (e : TypeError).
Arguments Ok {A} a.
Arguments Throw {A} e.

(** [!!v] *)
Definition truthy (v : value) : bool :=
  match v with
  | VUndefined | VNull => false
  | VBool b => b
  | VNum n => negb (n =? 0)%Z
  | VStr s => negb (s =? "")
  | VArr _ | VObj _ => true
  end.

(** [o[key]] on a mapping, as an option. *)
Fixpoint lookup {A : Type} (key : string) (o : list (string * A)) : option A :=
  match o with
  | [] => None
  | (k, v) :: rest => if k =? key then Some v else lookup key rest
  end.

(** [o.key] on an object: a missing property reads as undefined. *)
Definition get (o : object) (key : string) : value :=
  match lookup key o with
  | Some v => v
  | None => VUndefined
  end.

(** [v.key] on any value, for the property names the validator reads
    ([dns], [pid], [privileged], [network_mode], [aliases]): none of them is
    a built-in property of a string, number, boolean or array, so those
    read as undefined; undefined and null throw. *)
Definition prop (v : value) (key : string) : result value :=
  match v with
  | VUndefined | VNull => Throw NullishAccess
  | VObj o => Ok (get o key)
  | VBool _ | VNum _ | VStr _ | VArr _ => Ok VUndefined
  end.

(** The index keys ["0"], ["1"], ... of a string or an array. *)
Definition index_keys (n : nat) : list string :=
  map (fun i => NilEmpty.string_of_uint (Nat.to_uint i)) (seq 0 n).

(** The one-character strings of a string. *)
Fixpoint chars (s : string) : list value :=
  match s with
  | EmptyString => []
  | String c rest => VStr (String c EmptyString) :: chars rest
  end.

(** [Object.keys(v)] *)
Definition Object_keys (v : value) : result (list string) :=
  match v with
  | VUndefined | VNull => Throw NullishAccess
  | VBool _ | VNum _ => Ok []
  | VStr s => Ok (index_keys (String.length s))
  | VArr items => Ok (index_keys (List.length items))
  | VObj o => Ok (map fst o)
  end.

(** [Object.values(v)] *)
Definition Object_values (v : value) : result (list value) :=
  match v with
  | VUndefined | VNull => Throw NullishAccess
  | VBool _ | VNum _ => Ok []
  | VStr s => Ok (chars s)
  | VArr items => Ok items
  | VObj o => Ok (map snd o)
  end.

(** The elements [for (const x of v)] visits. *)
Definition iterate (v : value) : result (list value) :=
  match v with
  | VArr items => Ok items
  | VStr s => Ok (chars s)
  | VUndefined | VNull | VBool _ | VNum _ | VObj _ => Throw NotIterable
  end.

(** [v === s] for a string [s]. *)
Definition is_string (v : value) (s : string) : bool :=
  match v with
  | VStr t => t =? s
  | _ => false
  end.

(** [typeof v === "string"] *)
Definition typeof_string (v : value) : bool :=
  match v with
  | VStr _ => true
  | _ => false
  end.

(** [v === true] and [v === false] *)
Definition is_true (v : value) : bool :=
  match v with VBool true => true | _ => false end.
Definition is_false (v : value) : bool :=
  match v with VBool false => true | _ => false end.

(** [xs.includes(s)] and [xs.indexOf(s) !== -1] on an array of strings. *)
Definition includes (xs : list string) (s : string) : bool :=
  existsb (fun x => x =? s) xs.

(** [xs.includes(v)] for an arbitrary value: only a string can be found. *)
Definition includes_value (xs : list string) (v : value) : bool :=
  match v with
  | VStr s => includes xs s
  | _ => false
  end.

(** [xs.some(f)] with a callback that may throw: left to right, stopping at
    the first element the callback accepts. *)
Fixpoint some {A : Type} (f : A -> result bool) (xs : list A) : result bool :=
  match xs with
  | [] => Ok false
  | x :: rest =>
      match f x with
      | Ok true => Ok true
      | Ok false => some f rest
      | Throw e => Throw e
      end
  end.

(** [xs.map(f)] with a callback that may throw. *)
Fixpoint map_result {A B : Type} (f : A -> result B) (xs : list A) : result (list B) :=
  match xs with
  | [] => Ok []
  | x :: rest =>
      match f x with
      | Throw e => Throw e
      | Ok y =>
          match map_result f rest with
          | Throw e => Throw e
          | Ok ys => Ok (y :: ys)
          end
      end
  end.

(** [xs.flat()] *)
Definition flat (xs : list value) : list value :=
  flat_map (fun v => match v with VArr ys => ys | _ => [v] end) xs.

(** [s.split(sep)] for a one-character separator: never empty. *)
Fixpoint split (sep : ascii) (s : string) : list string :=
  match s with
  | EmptyString => [EmptyString]
  | String c rest =>
      if Ascii.eqb c sep then EmptyString :: split sep rest
      else match split sep rest with
           | h :: t => String c h :: t
           | [] => [String c EmptyString]
           end
  end.

(** [v.split(":")]: only a string has the method. *)
Definition split_colon (v : value) : result (list string) :=
  match v with
  | VStr s => Ok (split ":" s)
  | VUndefined | VNull => Throw NullishAccess
  | _ => Throw NotAFunction
  end.

(** [v.startsWith(p)]: only a string has the method. *)
Definition startsWith (v : value) (p : string) : result bool :=
  match v with
  | VStr s => Ok (String.prefix p s)
  | VUndefined | VNull => Throw NullishAccess
  | _ => Throw NotAFunction
  end.

(** The line feed used by [join("\n")]. *)
Definition LF : string := String (ascii_of_nat 10) EmptyString.

End JS.
Import JS.

(* ================================================================== *)
(** ** The semver package

    [semver.lt] comes from the npm package of that name, which is not part of
    this repository.  This module follows the package's [SemVer] class in
    strict mode: the raw string may be at most 256 characters, is trimmed, and
    must read [v?MAJOR.MINOR.PATCH(-PRERELEASE)?(+BUILD)?] with numeric
    components without leading zeros and at most [MAX_SAFE_INTEGER]; anything
    else is a [TypeError].  Precedence compares major, minor and patch as
    numbers and then the prerelease identifiers; build metadata is ignored.
    Numeric prerelease identifiers are compared as exact integers (the package
    compares their double approximations, which differ only beyond 2^53). *)

Module semver.

Definition MAX_LENGTH : nat := 256.
Definition MAX_SAFE_INTEGER : N := 9007199254740991.

Inductive identifier : Type :=
| Numeric (n : N)
| Alphanumeric (s : string).

Record SemVer : Type := {
  major : N;
  minor : N;
  patch : N;
  prerelease : list identifier;
  build : list string
}.

(** [\s] for the characters a [string] can hold. *)
Definition is_space (c : ascii) : bool :=
  let n := nat_of_ascii c in
  (((9 <=? n) && (n <=? 13)) || (n =? 32) || (n =? 160))%nat.

Definition is_digit (c : ascii) : bool :=
  let n := nat_of_ascii c in
  ((48 <=? n) && (n <=? 57))%nat.

(** [[a-zA-Z-]] *)
Definition is_letter_or_hyphen (c : ascii) : bool :=
  let n := nat_of_ascii c in
  (((65 <=? n) && (n <=? 90)) || ((97 <=? n) && (n <=? 122)) || (n =? 45))%nat.

Fixpoint all_chars (p : ascii -> bool) (s : string) : bool :=
  match s with
  | EmptyString => true
  | String c rest => p c && all_chars p rest
  end.

Fixpoint trim_start (s : string) : string :=
  match s with
  | EmptyString => EmptyString
  | String c rest => if is_space c then trim_start rest else s
  end.

Fixpoint trim_end (s : string) : string :=
  match s with
  | EmptyString => EmptyString
  | String c rest =>
      match trim_end rest with
      | EmptyString => if is_space c then EmptyString else String c EmptyString
      | kept => String c kept
      end
  end.

(** [s.trim()] *)
Definition trim (s : string) : string := trim_end (trim_start s).

(** The longest prefix of digits, and what follows it. *)
Fixpoint span_digits (s : string) : string * string :=
  match s with
  | EmptyString => (EmptyString, EmptyString)
  | String c rest =>
      if is_digit c
      then let '(ds, tl) := span_digits rest in (String c ds, tl)
      else (EmptyString, s)
  end.

(** The number a string of digits denotes. *)
Fixpoint digits_value (acc : N) (s : string) : N :=
  match s with
  | EmptyString => acc
  | String c rest => digits_value (acc * 10 + (N_of_ascii c - 48)) rest
  end.

(** [0|[1-9]\d*] *)
Definition numeric_identifier (s : string) : option N :=
  match s with
  | EmptyString => None
  | String c rest =>
      if all_chars is_digit s && (negb (Ascii.eqb c "0") || (rest =? ""))
      then Some (digits_value 0 s)
      else None
  end.

(** [0|[1-9]\d*|\d*[a-zA-Z-][a-zA-Z0-9-]*] *)
Definition prerelease_identifier (s : string) : option identifier :=
  match s with
  | EmptyString => None
  | String _ _ =>
      if all_chars is_digit s
      then match numeric_identifier s with
           | Some n => Some (Numeric n)
           | None => None
           end
      else if all_chars (fun c => is_digit c || is_letter_or_hyphen c) s
           then Some (Alphanumeric s)
           else None
  end.

(** [[0-9A-Za-z-]+] *)
Definition build_identifier (s : string) : option string :=
  match s with
  | EmptyString => None
  | String _ _ =>
      if all_chars (fun c => is_digit c || is_letter_or_hyphen c) s
      then Some s
      else None
  end.

Fixpoint all_some {A B : Type} (f : A -> option B) (xs : list A) : option (list B) :=
  match xs with
  | [] => Some []
  | x :: rest =>
      match f x, all_some f rest with
      | Some y, Some ys => Some (y :: ys)
      | _, _ => None
      end
  end.

(** Cut at the first [+]. *)
Fixpoint cut_plus (s : string) : string * option string :=
  match s with
  | EmptyString => (EmptyString, None)
  | String c rest =>
      if Ascii.eqb c "+" then (EmptyString, Some rest)
      else let '(before, after) := cut_plus rest in (String c before, after)
  end.

Definition parse_build (b : option string) : option (list string) :=
  match b with
  | None => Some []
  | Some ids => all_some build_identifier (split "." ids)
  end.

(** What may follow the patch number: [(-PRERELEASE)?(+BUILD)?] up to the end. *)
Definition parse_tail (s : string) : option (list identifier * list string) :=
  match s with
  | EmptyString => Some ([], [])
  | String c rest =>
      if Ascii.eqb c "-" then
        let '(pre, bld) := cut_plus rest in
        match all_some prerelease_identifier (split "." pre), parse_build bld with
        | Some p, Some b => Some (p, b)
        | _, _ => None
        end
      else if Ascii.eqb c "+" then
        match parse_build (Some rest) with
        | Some b => Some ([], b)
        | None => None
        end
      else None
  end.

Definition strip_v (s : string) : string :=
  match s with
  | String c rest => if Ascii.eqb c "v" then rest else s
  | EmptyString => s
  end.

Definition expect_dot (s : string) : option string :=
  match s with
  | String c rest => if Ascii.eqb c "." then Some rest else None
  | EmptyString => None
  end.

(** The match of the FULL pattern against the trimmed string. *)
Definition match_full (s : string) : option (N * N * N * list identifier * list string) :=
  let '(ma, r1) := span_digits (strip_v s) in
  match expect_dot r1 with
  | None => None
  | Some r1' =>
      let '(mi, r2) := span_digits r1' in
      match expect_dot r2 with
      | None => None
      | Some r2' =>
          let '(pa, r3) := span_digits r2' in
          match numeric_identifier ma, numeric_identifier mi,
                numeric_identifier pa, parse_tail r3 with
          | Some a, Some b, Some c, Some (pre, bld) => Some (a, b, c, pre, bld)
          | _, _, _, _ => None
          end
      end
  end.

(** [new SemVer(version)] *)
Definition parse (version : string) : result SemVer :=
  if (MAX_LENGTH <? String.length version)%nat then Throw (InvalidVersion version)
  else
    match match_full (trim version) with
    | None => Throw (InvalidVersion version)
    | Some (a, b, c, pre, bld) =>
        if ((MAX_SAFE_INTEGER <? a) || (MAX_SAFE_INTEGER <? b) || (MAX_SAFE_INTEGER <? c))%N
        then Throw (InvalidVersion version)
        else Ok {| major := a; minor := b; patch := c; prerelease := pre; build := bld |}
    end.

Definition then_compare (c : comparison) (next : comparison) : comparison :=
  match c with
  | Eq => next
  | _ => c
  end.

(** [compareIdentifiers]: numbers before names, numbers by value, names by
    code unit. *)
Definition compareIdentifiers (a b : identifier) : comparison :=
  match a, b with
  | Numeric x, Numeric y => N.compare x y
  | Numeric _, Alphanumeric _ => Lt
  | Alphanumeric _, Numeric _ => Gt
  | Alphanumeric x, Alphanumeric y => String.compare x y
  end.

Definition compareMain (x y : SemVer) : comparison :=
  then_compare (N.compare (major x) (major y))
    (then_compare (N.compare (minor x) (minor y))
       (N.compare (patch x) (patch y))).

(** The identifier-by-identifier loop of [comparePre]. *)
Fixpoint comparePre_loop (xs ys : list identifier) : comparison :=
  match xs, ys with
  | [], [] => Eq
  | _ :: _, [] => Gt
  | [], _ :: _ => Lt
  | a :: xs', b :: ys' => then_compare (compareIdentifiers a b) (comparePre_loop xs' ys')
  end.

(** [comparePre]: a version without prerelease is above one with. *)
Definition comparePre (x y : SemVer) : comparison :=
  match prerelease x, prerelease y with
  | _ :: _, [] => Lt
  | [], _ :: _ => Gt
  | [], [] => Eq
  | xs, ys => comparePre_loop xs ys
  end.

Definition compare (x y : SemVer) : comparison :=
  then_compare (compareMain x y) (comparePre x y).

(** [semver.lt(a, b)] *)
Definition lt (a b : string) : result bool :=
  match parse a with
  | Throw e => Throw e
  | Ok x =>
      match parse b with
      | Throw e => Throw e
      | Ok y => Ok (match compare x y with Lt => true | _ => false end)
      end
  end.

End semver.

(* ================================================================== *)
(** ** Data model *)

(** The policy parameters of [./params], which is not among the sources:
    the validator reads these five fields and nothing else of it. *)
Record Params : Type := {
  MINIMUM_COMPOSE_FILE_VERSION : string;
  DNS_SERVICE : string;
  DOCKER_WHITELIST_NETWORKS : list string;
  DOCKER_CORE_ALIASES : list string;
  SAFE_KEYS : list string
}.

(** The compose file as typed by [Compose]: the top level is a record and
    each service is an object; what a service holds is free-form, and so is
    what the top-level mappings give each network and each volume (a network
    or a volume declared without a definition is null). *)
Record Compose : Type := {
  version : string;
  services : list (string * object);
  networks : option (list (string * value));
  volumes : option (list (string * value))
}.

(** Modelled from the spec: the manifest type and [getIsCore] live in
    [../manifest/types] and [../../utils/getIsCore], outside the sources; the
    spec gives the manifest a package name and treats "is a core package" as
    a given attribute derived from it. *)
Record Manifest : Type := {
  name : string;
  isCore : bool
}.

Definition getIsCore (manifest : Manifest) : bool := isCore manifest.

(** One constructor per [Error(...)] the rules push, named after the spec's
    taxonomy, with the data the message interpolates. *)
Inductive Violation : Type :=
| VersionTooLow (declared : string)
| NetworkNotWhitelisted
| NetworkNotExternal
| ServiceKeyNotAllowed (cpServiceName : string)
| DnsMismatch (cpServiceName : string)
| PidUnsafe (cpServiceName : string)
| PrivilegedNotAllowed (cpServiceName : string)
| NetworkModeHostNotAllowed (cpServiceName : string)
| ServiceNetworkNotWhitelisted (cpServiceName : string)
| ReservedAliasUsed (cpServiceName : string)
| VolumeMissingTopLevelDefinition (cpServiceName : string)
| VolumeNameMissing (cpServiceName : string)
| BindMountNotAllowed (cpServiceName : string) (cpServiceVolumeName : string).

(** The module-level [aggregatedError]. *)
Record AggregateError : Type := {
  errors : list Violation;
  message : string
}.

(** What a call can reach of the heap: the shared [aggregatedError] and the
    two objects its arguments refer to. *)
Record Heap : Type := {
  aggregatedError : AggregateError;
  composeUnsafe : Compose;
  manifest : Manifest
}.

(** [const aggregatedError = new AggregateError([])] *)
Definition initial_aggregatedError : AggregateError :=
  {| errors := []; message := "" |}.

Definition set_errors (errs : list Violation) (h : Heap) : Heap :=
  {| aggregatedError := {| errors := errs; message := message (aggregatedError h) |};
     composeUnsafe := composeUnsafe h;
     manifest := manifest h |}.

Definition set_message (msg : string) (h : Heap) : Heap :=
  {| aggregatedError := {| errors := errors (aggregatedError h); message := msg |};
     composeUnsafe := composeUnsafe h;
     manifest := manifest h |}.

(* ================================================================== *)
(** ** Rule evaluation: heap passing with exceptions *)

Definition M (A : Type) : Type := Heap -> result A * Heap.

Definition ret {A : Type} (a : A) : M A := fun h => (Ok a, h).

Definition bind {A B : Type} (m : M A) (k : A -> M B) : M B :=
  fun h =>
    match m h with
    | (Ok a, h') => k a h'
    | (Throw e, h') => (Throw e, h')
    end.

Definition lift {A : Type} (r : result A) : M A := fun h => (r, h).

(** [aggregatedError.errors.push(Error(...))] *)
Definition push (v : Violation) : M unit :=
  fun h => (Ok tt, set_errors (errors (aggregatedError h) ++ [v]) h).

Definition when (b : bool) (m : M unit) : M unit :=
  if b then m else ret tt.

Declare Scope js_scope.
Delimit Scope js_scope with js.
Notation "x <- m ;; k" := (bind m (fun x => k))
  (at level 61, m at next level, right associativity) : js_scope.
Notation "m ;; k" := (bind m (fun _ => k))
  (at level 61, right associativity) : js_scope.
Open Scope js_scope.

(** How a loop body ends: falling through or [continue], or [return]. *)
Inductive completion : Type :=
| Normal
| Return.

(** [for (const x of xs) body] *)
Fixpoint for_of {A : Type} (xs : list A) (body : A -> M completion) : M unit :=
  match xs with
  | [] => ret tt
  | x :: rest =>
      c <- body x ;;
      match c with
      | Normal => for_of rest body
      | Return => ret tt
      end
  end.

(* ================================================================== *)
(** ** The validator *)

Section Validator.

Variable params : Params.

(** The message each [Error] is built with. *)
Definition Violation_message (v : Violation) : string :=
  match v with
  | VersionTooLow declared =>
      "Compose version " ++ declared ++ " is not supported. Minimum version is "
        ++ MINIMUM_COMPOSE_FILE_VERSION params
  | NetworkNotWhitelisted =>
      "Only docker networks " ++ String.concat "," (DOCKER_WHITELIST_NETWORKS params)
        ++ " are allowed"
  | NetworkNotExternal => "Docker internal networks are not allowed"
  | ServiceKeyNotAllowed cpServiceName =>
      "Compose service " ++ cpServiceName
        ++ " has keys that are not allowed. Allowed keys are: "
        ++ String.concat "," (SAFE_KEYS params)
  | DnsMismatch cpServiceName =>
      "Compose service " ++ cpServiceName ++ " has DNS different than "
        ++ DNS_SERVICE params
  | PidUnsafe cpServiceName =>
      "Compose service " ++ cpServiceName ++ " hasPID feature differnet than service:*"
  | PrivilegedNotAllowed cpServiceName =>
      "Compose service " ++ cpServiceName
        ++ " has privileged as true but is not a core package"
  | NetworkModeHostNotAllowed cpServiceName =>
      "Compose service " ++ cpServiceName
        ++ " has network_mode: host but is not a core package"
  | ServiceNetworkNotWhitelisted cpServiceName =>
      "Compose service " ++ cpServiceName
        ++ " has a non-whitelisted docker network. Only docker networks "
        ++ String.concat "," (DOCKER_WHITELIST_NETWORKS params) ++ " are allowed"
  | ReservedAliasUsed cpServiceName =>
      "Compose service " ++ cpServiceName ++ " has a reserved docker alias. Aliases "
        ++ String.concat "," (DOCKER_CORE_ALIASES params)
        ++ " are reserved to core packages"
  | VolumeMissingTopLevelDefinition cpServiceName =>
      "Compose service " ++ cpServiceName
        ++ " has a volume not allowed. All docker volumes defined at the service level must be defined also at the top level volumes"
  | VolumeNameMissing cpServiceName =>
      "Compose service " ++ cpServiceName ++ " has a volume without name"
  | BindMountNotAllowed cpServiceName cpServiceVolumeName =>
      "Compose service " ++ cpServiceName
        ++ " has a bind-mounted volume, Bind.mounted volumes are not allowed. Make sure the compose service volume "
        ++ cpServiceVolumeName ++ " is defined in the top level volumes"
  end.

(** What [join] makes of an [Error]: its [toString()]. *)
Definition Error_toString (v : Violation) : string :=
  "Error: " ++ Violation_message v.

(** [aggregatedError.errors.join("\n")] *)
Definition join_errors (errs : list Violation) : string :=
  String.concat LF (map Error_toString errs).

(** [compose.services[cpServiceName]], for the uses that dereference it at
    once. *)
Definition service_of (compose : Compose) (cpServiceName : string) : result object :=
  match lookup cpServiceName (services compose) with
  | Some cpService => Ok cpService
  | None => Throw NullishAccess
  end.

(** Ensures the docker compose version is supported *)
Definition validateComposeVersion (compose : Compose) : M unit :=
  tooLow <- lift (semver.lt (version compose ++ ".0")
                            (MINIMUM_COMPOSE_FILE_VERSION params ++ ".0")) ;;
  when tooLow (push (VersionTooLow (version compose))).

(** [network => network.external === false] *)
Definition external_is_false (network : value) : result bool :=
  match prop network "external" with
  | Throw e => Throw e
  | Ok external => Ok (is_false external)
  end.

(** Ensures the docker compose networks are whitelisted *)
Definition validateComposeNetworks (compose : Compose) : M unit :=
  match networks compose with
  | None => ret tt
  | Some cpNetworks =>
      when (existsb
              (fun networkName => negb (includes (DOCKER_WHITELIST_NETWORKS params) networkName))
              (map fst cpNetworks))
           (push NetworkNotWhitelisted) ;;
      internal <- lift (some external_is_false (map snd cpNetworks)) ;;
      when internal (push NetworkNotExternal)
  end.

(** Ensures the compose keys are whitelisted *)
Definition validateComposeServicesKeys (compose : Compose) (cpServiceName : string) : M unit :=
  cpService <- lift (service_of compose cpServiceName) ;;
  let composeServiceKeys := map fst cpService in
  when (existsb (fun composeServiceKey => negb (includes (SAFE_KEYS params) composeServiceKey))
          composeServiceKeys)
       (push (ServiceKeyNotAllowed cpServiceName)).

(** The four callbacks of the value rule; [service] is an element of
    [Object.values] of the service. *)
Definition dns_differs (service : value) : result bool :=
  match prop service "dns" with
  | Throw e => Throw e
  | Ok dns => Ok (truthy dns && negb (is_string dns (DNS_SERVICE params)))
  end.

Definition pid_unsafe (service : value) : result bool :=
  match prop service "pid" with
  | Throw e => Throw e
  | Ok pid =>
      if truthy pid
      then match startsWith pid "service:" with
           | Throw e => Throw e
           | Ok b => Ok (negb b)
           end
      else Ok false
  end.

Definition is_privileged (service : value) : result bool :=
  match prop service "privileged" with
  | Throw e => Throw e
  | Ok privileged => Ok (is_true privileged)
  end.

Definition network_mode_host (service : value) : result bool :=
  match prop service "network_mode" with
  | Throw e => Throw e
  | Ok network_mode => Ok (is_string network_mode "host")
  end.

(** Ensures the compose keys values are valid for dappnode *)
Definition validateComposeServicesValues
  (compose : Compose) (isCore : bool) (cpServiceName : string) : M unit :=
  cpService <- lift (service_of compose cpServiceName) ;;
  let cpServiceValues := map snd cpService in
  differs <- lift (some dns_differs cpServiceValues) ;;
  when differs (push (DnsMismatch cpServiceName)) ;;
  unsafe <- lift (some pid_unsafe cpServiceValues) ;;
  when unsafe (push (PidUnsafe cpServiceName)) ;;
  privileged <- lift (if negb isCore then some is_privileged cpServiceValues else Ok false) ;;
  when privileged (push (PrivilegedNotAllowed cpServiceName)) ;;
  host <- lift (if negb isCore then some network_mode_host cpServiceValues else Ok false) ;;
  when host (push (NetworkModeHostNotAllowed cpServiceName)).

(** [Object.values(n).map(networks => networks.aliases).flat().some(alias =>
    alias && DOCKER_CORE_ALIASES.includes(alias))] *)
Definition uses_core_alias (cpServiceNetwork : value) : result bool :=
  match Object_values cpServiceNetwork with
  | Throw e => Throw e
  | Ok vals =>
      match map_result (fun networks => prop networks "aliases") vals with
      | Throw e => Throw e
      | Ok aliases =>
          Ok (existsb
                (fun alias => truthy alias && includes_value (DOCKER_CORE_ALIASES params) alias)
                (flat aliases))
      end
  end.

(** The body of the loop over a service's networks. *)
Definition service_network_body
  (isCore : bool) (cpServiceName : string) (cpServiceNetwork : value) : M completion :=
  if negb (truthy cpServiceNetwork) then ret Normal
  else if typeof_string cpServiceNetwork
          && negb (includes_value (DOCKER_WHITELIST_NETWORKS params) cpServiceNetwork)
  then push (ServiceNetworkNotWhitelisted cpServiceName) ;; ret Normal
  else
    keys <- lift (Object_keys cpServiceNetwork) ;;
    when (existsb (fun network => negb (includes (DOCKER_WHITELIST_NETWORKS params) network)) keys)
         (push (ServiceNetworkNotWhitelisted cpServiceName)) ;;
    reserved <- lift (if negb isCore then uses_core_alias cpServiceNetwork else Ok false) ;;
    when reserved (push (ReservedAliasUsed cpServiceName)) ;;
    ret Normal.

(** Ensure the compose services networks are whitelisted *)
Definition validateComposeServicesNetworks
  (compose : Compose) (isCore : bool) (cpServiceName : string) : M unit :=
  cpService <- lift (service_of compose cpServiceName) ;;
  let cpServiceNetworks := get cpService "networks" in
  if negb (truthy cpServiceNetworks) then ret tt
  else
    items <- lift (iterate cpServiceNetworks) ;;
    for_of items (service_network_body isCore cpServiceName).

(** The body of the loop over a service's volumes. *)
Definition service_volume_body
  (compose : Compose) (isCore : bool) (cpServiceName : string) (cpServiceVolume : value)
  : M completion :=
  if negb (truthy cpServiceVolume) then ret Normal
  else
    match volumes compose with
    | None =>
        push (VolumeMissingTopLevelDefinition cpServiceName) ;;
        ret Return
    | Some cpVolumes =>
        parts <- lift (split_colon cpServiceVolume) ;;
        let cpServiceVolumeName := hd EmptyString parts in
        when (cpServiceVolumeName =? "") (push (VolumeNameMissing cpServiceName)) ;;
        let cpVolumesNames := map fst cpVolumes in
        when (negb isCore && negb (includes cpVolumesNames cpServiceVolumeName))
             (push (BindMountNotAllowed cpServiceName cpServiceVolumeName)) ;;
        ret Normal
    end.

(** Ensure only core packages can use bind-mounted volumes *)
Definition validateComposeAndComposeServicesVolumes
  (compose : Compose) (isCore : bool) (cpServiceName : string) : M unit :=
  cpService <- lift (service_of compose cpServiceName) ;;
  let cpServiceVolumes := get cpService "volumes" in
  if negb (truthy cpServiceVolumes) then ret tt
  else
    items <- lift (iterate cpServiceVolumes) ;;
    for_of items (service_volume_body compose isCore cpServiceName).

(** The per-service rules, in the order the loop of the orchestrator calls
    them. *)
Definition service_rules (compose : Compose) (isCore : bool) (cpServiceName : string)
  : M completion :=
  validateComposeServicesKeys compose cpServiceName ;;
  validateComposeServicesValues compose isCore cpServiceName ;;
  validateComposeServicesNetworks compose isCore cpServiceName ;;
  validateComposeAndComposeServicesVolumes compose isCore cpServiceName ;;
  ret Normal.

(** The [try] block up to, and without, its closing [throw]. *)
Definition run_rules (compose : Compose) (isCore : bool) : M unit :=
  validateComposeVersion compose ;;
  validateComposeNetworks compose ;;
  let cpServicesNames := map fst (services compose) in
  for_of cpServicesNames (service_rules compose isCore).

(** How a call ends.  A [TypeError] raised by a rule passes through the
    [catch], which appends to its message when violations were collected;
    the text the engine gave the error is not modelled, [appended] is what
    follows the doubled original message. *)
Inductive outcome : Type :=
| Returns
| Throws_aggregatedError
| Throws_TypeError (e : TypeError) (appended : option string).

(** Validates against custom dappnode docker compose specs.

    The two arguments are references: the call is modelled on the heap that
    holds the objects they refer to, next to the shared [aggregatedError],
    and gives back how it ended and the heap it left. *)
Definition validateDappnodeCompose (h0 : Heap) : outcome * Heap :=
  let h := set_errors [] h0 in
  let isCore := getIsCore (manifest h) in
  match run_rules (composeUnsafe h) isCore h with
  | (Ok _, h1) =>
      match errors (aggregatedError h1) with
      | [] => (Returns, h1)
      | _ :: _ =>
          (* throw aggregatedError, caught at once: e is aggregatedError *)
          let m := message (aggregatedError h1) in
          (Throws_aggregatedError,
           set_message (m ++ (m ++ LF ++ join_errors (errors (aggregatedError h1))))%string h1)
      end
  | (Throw e, h1) =>
      match errors (aggregatedError h1) with
      | [] => (Throws_TypeError e None, h1)
      | _ :: _ =>
          (Throws_TypeError e (Some (LF ++ join_errors (errors (aggregatedError h1)))%string), h1)
      end
  end.

End Validator.

(* ================================================================== *)
(** ** Vocabulary of the statements *)

(** [emits m r vs]: from any heap, [m] ends with [r] after pushing exactly
    [vs], in this order, and touches nothing else. *)
Definition emits {A : Type} (m : M A) (r : result A) (vs : list Violation) : Prop :=
  forall h, m h = (r, set_errors (errors (aggregatedError h) ++ vs) h).

(** [writes P m]: [m] is such a computation, whatever its result, and all it
    pushes satisfies [P]. *)
Definition writes {A : Type} (P : Violation -> Prop) (m : M A) : Prop :=
  exists r vs, Forall P vs /\ emits m r vs.

(** The violations that name a service: everything but the three top-level
    ones. *)
Definition names_service (v : Violation) : Prop :=
  match v with
  | VersionTooLow _ | NetworkNotWhitelisted | NetworkNotExternal => False
  | _ => True
  end.

Definition Violation_eq_dec (x y : Violation) : {x = y} + {x <> y}.
Proof. decide equality; apply string_dec. Defined.

(** A value that is neither an object nor null or undefined: what a
    service's scalar and list fields hold. *)
Definition is_plain (v : value) : bool :=
  match v with
  | VBool _ | VNum _ | VStr _ | VArr _ => true
  | VUndefined | VNull | VObj _ => false
  end.

(** The rejection message as the spec describes it: the violation messages,
    in order, joined by newlines. *)
Definition spec_rejection_message (params : Params) (errs : list Violation) : string :=
  String.concat LF (map (Violation_message params) errs).

(** The version rule as the spec words it: a patch component is appended
    when only major.minor is given, then the two are compared. *)
Definition spec_normalize (v : string) : string :=
  if (List.length (split "." v) =? 2)%nat then (v ++ ".0")%string else v.

Definition spec_version_rule (minimum declared : string) : result (list Violation) :=
  match semver.lt (spec_normalize declared) (spec_normalize minimum) with
  | Throw e => Throw e
  | Ok true => Ok [VersionTooLow declared]
  | Ok false => Ok []
  end.

(** [major_minor v a b]: [v] reads [a.b], two decimal numbers without
    leading zeros that semver accepts as components. *)
Definition major_minor (v : string) (a b : N) : Prop :=
  exists ma mi,
    v = (ma ++ "." ++ mi)%string
    /\ semver.numeric_identifier ma = Some a
    /\ semver.numeric_identifier mi = Some b
    /\ (a <= semver.MAX_SAFE_INTEGER)%N
    /\ (b <= semver.MAX_SAFE_INTEGER)%N.

(** [always_throws m]: from any heap, [m] ends with a TypeError. *)
Definition always_throws {A : Type} (m : M A) : Prop :=
  forall h, exists e, fst (m h) = Throw e.

(** The violations a core package is exempt from. *)
Definition core_only (v : Violation) : Prop :=
  match v with
  | PrivilegedNotAllowed _ | NetworkModeHostNotAllowed _
  | ReservedAliasUsed _ | BindMountNotAllowed _ _ => True
  | _ => False
  end.

(** What the volume rule pushes for one entry that is a string, given the
    names of the top-level volumes: nothing for the empty string, else the
    outcome of the name check followed by that of the top-level check. *)
Definition mount_report
  (cpVolumesNames : list string) (isCore : bool) (cpServiceName mount : string)
  : list Violation :=
  if mount =? "" then []
  else
    let cpServiceVolumeName := hd EmptyString (split ":" mount) in
    (if cpServiceVolumeName =? "" then [VolumeNameMissing cpServiceName] else [])
      ++ (if negb isCore && negb (includes cpVolumesNames cpServiceVolumeName)
          then [BindMountNotAllowed cpServiceName cpServiceVolumeName] else []).

(** A service the rules have nothing to say about: safe keys only, scalar or
    list values, and neither [networks] nor [volumes]. *)
Definition unremarkable_service (params : Params) (cpService : object) : Prop :=
  (forall key, In key (map fst cpService) -> In key (SAFE_KEYS params))
  /\ forallb (fun field => is_plain (snd field)) cpService = true
  /\ get cpService "networks" = VUndefined
  /\ get cpService "volumes" = VUndefined.

(* ================================================================== *)
(** ** Sample inputs *)

(** Modelled from the spec: [params.ts] is outside the sources.  The spec's
    examples put the minimum compose version at 3.4; it names the other four
    parameters without giving their values, which here are DAppNode's usual
    ones and only serve the closed examples below. *)
Definition dappnode_params : Params :=
  {| MINIMUM_COMPOSE_FILE_VERSION := "3.4";
     DNS_SERVICE := "172.33.1.2";
     DOCKER_WHITELIST_NETWORKS := ["dncore_network"; "dnpublic_network"];
     DOCKER_CORE_ALIASES := ["dappmanager.dappnode"; "wifi.dappnode"; "vpn.dappnode";
                             "ipfs.dappnode"; "bind.dappnode"];
     SAFE_KEYS := ["cap_add"; "cap_drop"; "command"; "depends_on"; "devices"; "dns";
                   "entrypoint"; "environment"; "expose"; "extra_hosts"; "healthcheck";
                   "image"; "labels"; "logging"; "network_mode"; "networks"; "pid";
                   "ports"; "privileged"; "restart"; "stop_grace_period"; "stop_signal";
                   "user"; "volumes"; "working_dir"] |}.

(** A heap on which nothing has run yet. *)
Definition fresh_heap (compose : Compose) (core : bool) : Heap :=
  {| aggregatedError := initial_aggregatedError;
     composeUnsafe := compose;
     manifest := {| name := "example.dnp.dappnode.eth"; isCore := core |} |}.

Definition compose_of_service (declared : string) (service : object)
  (top_volumes : option (list (string * value))) : Compose :=
  {| version := declared;
     services := [("app", service)];
     networks := None;
     volumes := top_volumes |}.

(** [services: {app: {image: "app:1.0.0", privileged: true}}] *)
Definition privileged_service : object :=
  [("image", VStr "app:1.0.0"); ("privileged", VBool true)].

(** [services: {app: {image: "app:1.0.0", dns: "8.8.8.8"}}] *)
Definition custom_dns_service : object :=
  [("image", VStr "app:1.0.0"); ("dns", VStr "8.8.8.8")].

(** [services: {app: {image: "app:1.0.0", environment: {dns: "8.8.8.8"}}}]:
    no [dns] key on the service, an environment variable of that name. *)
Definition env_dns_service : object :=
  [("image", VStr "app:1.0.0"); ("environment", VObj [("dns", VStr "8.8.8.8")])].

(** [services: {app: {image: "app:1.0.0", volumes: [":/data"]}}] *)
Definition nameless_mount_service : object :=
  [("image", VStr "app:1.0.0"); ("volumes", VArr [VStr ":/data"])].

(** [version: "3.0"], no services. *)
Definition old_compose : Compose :=
  {| version := "3.0"; services := []; networks := None; volumes := None |}.

(** [networks: {mynet: {external: false}}] on an otherwise empty compose. *)
Definition mynet_compose : Compose :=
  {| version := "3.5";
     services := [];
     networks := Some [("mynet", VObj [("external", VBool false)])];
     volumes := None |}.

(** [version: "3"], a compose file version without a minor number. *)
Definition bare_major_compose : Compose :=
  {| version := "3"; services := []; networks := None; volumes := None |}.

(** [version: "3.4.0"], the minimum written with its patch number. *)
Definition patch_version_compose : Compose :=
  {| version := "3.4.0"; services := []; networks := None; volumes := None |}.


(** A compose that breaks a top-level rule and a service rule at once. *)
Definition rejected_compose : Compose :=
  {| version := "3.0";
     services := [("app", nameless_mount_service)];
     networks := Some [("mynet", VObj [("external", VBool false)])];
     volumes := Some [("data", VObj [])] |}.

(* ================================================================== *)
(** * Properties *)

(** ** Strings *)

Lemma append_assoc (a b c : string) : ((a ++ b) ++ c = a ++ (b ++ c))%string.
Proof. induction a as [| x a IH]; simpl; [reflexivity | now rewrite IH]. Qed.

Lemma append_length (a b : string) :
  String.length (a ++ b) = String.length a + String.length b.
Proof. induction a as [| x a IH]; simpl; [reflexivity | now rewrite IH]. Qed.

(** ** The heap and the monad *)

Lemma set_errors_same (h : Heap) :
  set_errors (errors (aggregatedError h)) h = h.
Proof. destruct h as [[errs msg] c m]; reflexivity. Qed.

Lemma set_errors_twice (xs ys : list Violation) (h : Heap) :
  set_errors ys (set_errors xs h) = set_errors ys h.
Proof. reflexivity. Qed.

Lemma errors_set_errors (xs : list Violation) (h : Heap) :
  errors (aggregatedError (set_errors xs h)) = xs.
Proof. reflexivity. Qed.

Lemma emits_ret {A : Type} (a : A) : emits (ret a) (Ok a) [].
Proof.
  intros h. unfold ret. now rewrite app_nil_r, set_errors_same.
Qed.

Lemma emits_lift {A : Type} (r : result A) : emits (lift r) r [].
Proof.
  intros h. unfold lift. now rewrite app_nil_r, set_errors_same.
Qed.

Lemma emits_push (v : Violation) : emits (push v) (Ok tt) [v].
Proof. intros h. reflexivity. Qed.

Lemma emits_bind {A B : Type} (m : M A) (k : A -> M B) a vs1 r vs2 :
  emits m (Ok a) vs1 -> emits (k a) r vs2 -> emits (bind m k) r (vs1 ++ vs2).
Proof.
  intros Em Ek h. unfold bind. rewrite (Em h), (Ek _).
  rewrite errors_set_errors, set_errors_twice. now rewrite app_assoc.
Qed.

Lemma emits_bind_throw {A B : Type} (m : M A) (k : A -> M B) e vs :
  emits m (Throw e) vs -> emits (bind m k) (Throw e) vs.
Proof.
  intros Em h. unfold bind. now rewrite (Em h).
Qed.

Lemma emits_when (b : bool) (m : M unit) (vs : list Violation) :
  emits m (Ok tt) vs -> emits (when b m) (Ok tt) (if b then vs else []).
Proof.
  intros Em. destruct b; [exact Em | apply emits_ret].
Qed.

Lemma emits_when_push (b : bool) (v : Violation) :
  emits (when b (push v)) (Ok tt) (if b then [v] else []).
Proof. apply emits_when, emits_push. Qed.

(** ** Every rule only appends to the collector *)

Lemma writes_ret {A : Type} P (a : A) : writes P (ret a).
Proof. exists (Ok a), []. split; [constructor | apply emits_ret]. Qed.

Lemma writes_lift {A : Type} P (r : result A) : writes P (lift r).
Proof. exists r, []. split; [constructor | apply emits_lift]. Qed.

Lemma writes_push (P : Violation -> Prop) (v : Violation) : P v -> writes P (push v).
Proof.
  intros Pv. exists (Ok tt), [v]. split; [now repeat constructor | apply emits_push].
Qed.

Lemma writes_bind {A B : Type} P (m : M A) (k : A -> M B) :
  writes P m -> (forall a, writes P (k a)) -> writes P (bind m k).
Proof.
  intros (r & vs & Pvs & Em) Wk. destruct r as [a | e].
  - destruct (Wk a) as (r' & vs' & Pvs' & Ek).
    exists r', (vs ++ vs'). split.
    + apply Forall_app; now split.
    + eapply emits_bind; eassumption.
  - exists (Throw e), vs. split; [assumption | now apply emits_bind_throw].
Qed.

Lemma writes_when P (b : bool) (m : M unit) : writes P m -> writes P (when b m).
Proof. intros W. destruct b; [exact W | apply writes_ret]. Qed.

Lemma writes_for_of {A : Type} P (xs : list A) (body : A -> M completion) :
  (forall x, writes P (body x)) -> writes P (for_of xs body).
Proof.
  intros Wb. induction xs as [| x rest IH]; simpl.
  - apply writes_ret.
  - apply writes_bind; [apply Wb |].
    intros [|]; [exact IH | apply writes_ret].
Qed.

Lemma writes_weaken {A : Type} (P Q : Violation -> Prop) (m : M A) :
  (forall v, P v -> Q v) -> writes P m -> writes Q m.
Proof.
  intros PQ (r & vs & Pvs & Em). exists r, vs. split; [| exact Em].
  eapply Forall_impl; eassumption.
Qed.

(** Walks a rule written with [bind], [when], [push], [lift] and [for_of]. *)
Ltac writes_step :=
  first
    [ apply writes_ret
    | apply writes_lift
    | apply writes_push; simpl; auto
    | apply writes_when
    | apply writes_for_of; intros ?
    | apply writes_bind; [| intros ?]
    | match goal with
      | |- writes _ (if ?b then _ else _) => destruct b
      | |- writes _ (match ?x with _ => _ end) => destruct x
      end ].

Ltac writes_walk := cbv zeta; repeat writes_step.

Lemma validateComposeVersion_writes params compose :
  writes (fun v => exists declared, v = VersionTooLow declared)
         (validateComposeVersion params compose).
Proof. unfold validateComposeVersion. writes_walk. eauto. Qed.

Lemma validateComposeNetworks_emits params compose :
  exists r vs,
    emits (validateComposeNetworks params compose) r vs /\
    (vs = [] \/ vs = [NetworkNotWhitelisted] \/ vs = [NetworkNotExternal]
     \/ vs = [NetworkNotWhitelisted; NetworkNotExternal]).
Proof.
  unfold validateComposeNetworks. destruct (networks compose) as [cpNetworks |].
  - destruct (some external_is_false (map snd cpNetworks)) as [internal | e].
    + exists (Ok tt). eexists. split.
      * eapply emits_bind; [apply emits_when_push |].
        eapply emits_bind; [apply emits_lift | apply emits_when_push].
      * destruct (existsb _ _), internal; simpl; auto.
    + exists (Throw e). eexists. split.
      * eapply emits_bind; [apply emits_when_push |].
        apply emits_bind_throw, emits_lift.
      * destruct (existsb _ _); simpl; auto.
  - exists (Ok tt), []. split; [apply emits_ret | auto].
Qed.

Lemma validateComposeNetworks_writes params compose :
  writes (fun v => v = NetworkNotWhitelisted \/ v = NetworkNotExternal)
         (validateComposeNetworks params compose).
Proof. unfold validateComposeNetworks. writes_walk. Qed.

Lemma service_rules_writes params compose isCore cpServiceName :
  writes names_service (service_rules params compose isCore cpServiceName).
Proof.
  unfold service_rules, validateComposeServicesKeys, validateComposeServicesValues,
    validateComposeServicesNetworks, validateComposeAndComposeServicesVolumes,
    service_network_body, service_volume_body.
  writes_walk.
Qed.

Lemma run_rules_writes params compose isCore :
  writes (fun _ => True) (run_rules params compose isCore).
Proof.
  unfold run_rules. apply writes_bind.
  { eapply writes_weaken; [| apply validateComposeVersion_writes]. auto. }
  intros _. apply writes_bind.
  { destruct (validateComposeNetworks_emits params compose) as (r & vs & E & _).
    exists r, vs. split; [| exact E]. apply Forall_forall; auto. }
  intros _. cbv zeta. apply writes_for_of. intros x.
  eapply writes_weaken; [| apply service_rules_writes]. auto.
Qed.

(** ** The orchestrator in terms of what the rules emit *)

Lemma validateDappnodeCompose_run params h r vs :
  emits (run_rules params (composeUnsafe h) (getIsCore (manifest h))) r vs ->
  validateDappnodeCompose params h =
    let m := message (aggregatedError h) in
    match r, vs with
    | Ok _, [] => (Returns, set_errors [] h)
    | Ok _, _ :: _ =>
        (Throws_aggregatedError,
         set_message (m ++ (m ++ LF ++ join_errors params vs))%string (set_errors vs h))
    | Throw e, [] => (Throws_TypeError e None, set_errors [] h)
    | Throw e, _ :: _ =>
        (Throws_TypeError e (Some (LF ++ join_errors params vs)%string), set_errors vs h)
    end.
Proof.
  intros E. unfold validateDappnodeCompose.
  change (composeUnsafe (set_errors [] h)) with (composeUnsafe h).
  change (manifest (set_errors [] h)) with (manifest h).
  rewrite (E (set_errors [] h)).
  destruct r, vs; reflexivity.
Qed.

(** The collector ends up holding what the rules emitted, however the call
    ends. *)
Lemma validateDappnodeCompose_errors params h r vs :
  emits (run_rules params (composeUnsafe h) (getIsCore (manifest h))) r vs ->
  errors (aggregatedError (snd (validateDappnodeCompose params h))) = vs.
Proof.
  intros E. rewrite (validateDappnodeCompose_run _ _ _ _ E).
  destruct r, vs; reflexivity.
Qed.

Lemma run_rules_shape params compose isCore :
  exists r v1 v2 v3,
    emits (run_rules params compose isCore) r (v1 ++ v2 ++ v3) /\
    Forall (fun v => exists declared, v = VersionTooLow declared) v1 /\
    (v2 = [] \/ v2 = [NetworkNotWhitelisted] \/ v2 = [NetworkNotExternal]
     \/ v2 = [NetworkNotWhitelisted; NetworkNotExternal]) /\
    Forall names_service v3.
Proof.
  destruct (validateComposeVersion_writes params compose) as (r1 & v1 & P1 & E1).
  destruct r1 as [[] | e].
  - destruct (validateComposeNetworks_emits params compose) as (r2 & v2 & E2 & P2).
    destruct r2 as [[] | e2].
    + destruct (writes_for_of names_service (map fst (services compose))
                  (service_rules params compose isCore)
                  (service_rules_writes params compose isCore)) as (r3 & v3 & P3 & E3).
      exists r3, v1, v2, v3. repeat split; try assumption.
      unfold run_rules. eapply emits_bind; [exact E1 |].
      eapply emits_bind; [exact E2 | exact E3].
    + exists (Throw e2), v1, v2, []. repeat split; try assumption; [| constructor].
      unfold run_rules. rewrite app_nil_r.
      eapply emits_bind; [exact E1 |]. now apply emits_bind_throw.
  - exists (Throw e), v1, [], []. repeat split; auto.
    unfold run_rules. rewrite !app_nil_r. now apply emits_bind_throw.
Qed.

Lemma count_occ_Forall_other (P : Violation -> Prop) (x : Violation) (vs : list Violation) :
  ~ P x -> Forall P vs -> count_occ Violation_eq_dec vs x = 0.
Proof.
  intros NP F. apply count_occ_not_In. intros HIn.
  rewrite Forall_forall in F. exact (NP (F _ HIn)).
Qed.

(** ** Top-level networks *)





(** C9.  Whatever the compose, the list of violations a run of the validator
    leaves in the collector holds NetworkNotWhitelisted at most once and
    NetworkNotExternal at most once. *)
Theorem network_violations_at_most_once params h :
  let errs := errors (aggregatedError (snd (validateDappnodeCompose params h))) in
  count_occ Violation_eq_dec errs NetworkNotWhitelisted <= 1 /\
  count_occ Violation_eq_dec errs NetworkNotExternal <= 1.
Proof.
  destruct (run_rules_shape params (composeUnsafe h) (getIsCore (manifest h)))
    as (r & v1 & v2 & v3 & E & P1 & P2 & P3).
  cbv zeta. rewrite (validateDappnodeCompose_errors _ _ _ _ E).
  rewrite !count_occ_app.
  assert (N1 : ~ exists declared, NetworkNotWhitelisted = VersionTooLow declared)
    by (intros [d H]; discriminate H).
  assert (N2 : ~ exists declared, NetworkNotExternal = VersionTooLow declared)
    by (intros [d H]; discriminate H).
  rewrite (count_occ_Forall_other _ NetworkNotWhitelisted v1 N1 P1).
  rewrite (count_occ_Forall_other _ NetworkNotExternal v1 N2 P1).
  rewrite (count_occ_Forall_other _ NetworkNotWhitelisted v3 (fun F => F) P3).
  rewrite (count_occ_Forall_other _ NetworkNotExternal v3 (fun F => F) P3).
  destruct P2 as [-> | [-> | [-> | ->]]]; simpl; lia.
Qed.

(** Reading off what a computation emits from one run on a heap whose
    collector is empty. *)
Lemma emits_of_run {A : Type} P (m : M A) (h0 : Heap) (r : result A) vs :
  writes P m ->
  errors (aggregatedError h0) = [] ->
  m h0 = (r, set_errors vs h0) ->
  emits m r vs.
Proof.
  intros (r' & vs' & _ & E) H0 Hrun.
  rewrite (E h0), H0 in Hrun. simpl in Hrun.
  injection Hrun as <- <-. exact E.
Qed.

Lemma emits_nil_intro {A : Type} (m : M A) (r : result A) :
  (forall h, m h = (r, h)) -> emits m r [].
Proof.
  intros H h. rewrite H, app_nil_r. now rewrite set_errors_same.
Qed.

(** ** Determinism and the inputs *)

(** C6, as the code has it.  Running the validator and then running it again
    on the heap the first run left behind ends the same way (a return, the
    rejection by the shared aggregate, or the same TypeError) and leaves the
    same list of violations in the collector; neither run changes the compose
    or the manifest.  What a run writes is the shared aggregate. *)
Theorem validation_repeatable params h :
  let '(o1, h1) := validateDappnodeCompose params h in
  let '(o2, h2) := validateDappnodeCompose params h1 in
  o1 = o2
  /\ errors (aggregatedError h1) = errors (aggregatedError h2)
  /\ composeUnsafe h1 = composeUnsafe h /\ manifest h1 = manifest h
  /\ composeUnsafe h2 = composeUnsafe h /\ manifest h2 = manifest h.
Proof.
  destruct (run_rules_writes params (composeUnsafe h) (getIsCore (manifest h)))
    as (r & vs & _ & E).
  rewrite (validateDappnodeCompose_run _ _ _ _ E). cbv zeta.
  destruct r as [[] | e]; destruct vs as [| v vs].
  - rewrite (validateDappnodeCompose_run params (set_errors [] h) (Ok tt) [] E).
    repeat split.
  - rewrite (validateDappnodeCompose_run params (set_message _ (set_errors (v :: vs) h))
               (Ok tt) (v :: vs) E).
    repeat split.
  - rewrite (validateDappnodeCompose_run params (set_errors [] h) (Throw e) [] E).
    repeat split.
  - rewrite (validateDappnodeCompose_run params (set_errors (v :: vs) h)
               (Throw e) (v :: vs) E).
    repeat split.
Qed.

(** C6 as stated fails: a run is not free of side effects, and two runs on
    the same input do not reject it alike.  The first run on a compose of
    version ["3.0"] changes the heap, and the aggregate thrown by the second
    run carries another message than the one thrown by the first: the first
    message three times over. *)
Lemma validation_side_effect_counterexample :
  let h := fresh_heap old_compose false in
  let '(o1, h1) := validateDappnodeCompose dappnode_params h in
  let '(o2, h2) := validateDappnodeCompose dappnode_params h1 in
  o1 = Throws_aggregatedError /\ o2 = Throws_aggregatedError
  /\ h1 <> h
  /\ message (aggregatedError h2)
     = (message (aggregatedError h1) ++ message (aggregatedError h1)
          ++ message (aggregatedError h1))%string
  /\ message (aggregatedError h2) <> message (aggregatedError h1).
Proof.
  vm_compute. repeat split; discriminate.
Qed.

(** ** Collect, then decide *)

Lemma for_of_emits_all {A : Type} (body : A -> M completion) xs vss :
  Forall2 (fun x vs => emits (body x) (Ok Normal) vs) xs vss ->
  emits (for_of xs body) (Ok tt) (concat vss).
Proof.
  induction 1 as [| x vs xs vss Hx _ IH]; simpl.
  - apply emits_ret.
  - eapply emits_bind; [exact Hx | exact IH].
Qed.

(** When no rule throws, the try block emits what the rules emit, rule after
    rule and service after service. *)
Lemma run_rules_collects params compose isCore v1 v2 vss :
  emits (validateComposeVersion params compose) (Ok tt) v1 ->
  emits (validateComposeNetworks params compose) (Ok tt) v2 ->
  Forall2 (fun cpServiceName vs =>
             emits (service_rules params compose isCore cpServiceName) (Ok Normal) vs)
          (map fst (services compose)) vss ->
  emits (run_rules params compose isCore) (Ok tt) (v1 ++ v2 ++ concat vss).
Proof.
  intros E1 E2 E3. unfold run_rules.
  eapply emits_bind; [exact E1 |].
  eapply emits_bind; [exact E2 |].
  now apply for_of_emits_all.
Qed.

(** C7, as the code has it.  On an input where no rule throws, every rule
    runs and the collector receives their violations in rule order (version,
    top-level networks, then the per-service rules service by service); only
    then is the outcome decided.  With nothing collected the call returns and
    the aggregate's message is untouched.  Otherwise it throws the shared
    aggregate, whose [errors] are the collected violations and whose message
    ends in a newline followed by the violations, each rendered as
    ["Error: " ++ message], joined by newlines; that is the whole message
    when the aggregate's message was empty before the call. *)
Theorem validation_collects_then_decides params h v1 v2 vss :
  emits (validateComposeVersion params (composeUnsafe h)) (Ok tt) v1 ->
  emits (validateComposeNetworks params (composeUnsafe h)) (Ok tt) v2 ->
  Forall2 (fun cpServiceName vs =>
             emits (service_rules params (composeUnsafe h) (getIsCore (manifest h))
                      cpServiceName) (Ok Normal) vs)
          (map fst (services (composeUnsafe h))) vss ->
  let collected := v1 ++ v2 ++ concat vss in
  let '(o, h') := validateDappnodeCompose params h in
  errors (aggregatedError h') = collected
  /\ (collected = [] ->
      o = Returns /\ message (aggregatedError h') = message (aggregatedError h))
  /\ (collected <> [] ->
      o = Throws_aggregatedError
      /\ exists before,
          message (aggregatedError h')
          = (before ++ LF ++ join_errors params collected)%string
          /\ (message (aggregatedError h) = "" -> before = "")).
Proof.
  intros E1 E2 E3 collected.
  pose proof (run_rules_collects _ _ _ _ _ _ E1 E2 E3) as E.
  fold collected in E.
  rewrite (validateDappnodeCompose_run _ _ _ _ E). cbv zeta.
  destruct collected as [| v vs].
  - repeat split; congruence.
  - repeat split; try congruence.
    exists (message (aggregatedError h) ++ message (aggregatedError h))%string.
    split.
    + simpl message. now rewrite append_assoc.
    + intros ->. reflexivity.
Qed.

Lemma validation_collects_then_decides_witness :
  let '(o, h') := validateDappnodeCompose dappnode_params (fresh_heap rejected_compose false) in
  errors (aggregatedError h')
  = [VersionTooLow "3.0"; NetworkNotWhitelisted; NetworkNotExternal;
     VolumeNameMissing "app"; BindMountNotAllowed "app" ""]
  /\ o = Throws_aggregatedError
  /\ exists before,
      message (aggregatedError h')
      = (before ++ LF
           ++ join_errors dappnode_params
                [VersionTooLow "3.0"; NetworkNotWhitelisted; NetworkNotExternal;
                 VolumeNameMissing "app"; BindMountNotAllowed "app" ""])%string
      /\ before = "".
Proof.
  pose proof (validation_collects_then_decides dappnode_params
                (fresh_heap rejected_compose false)
                [VersionTooLow "3.0"] [NetworkNotWhitelisted; NetworkNotExternal]
                [[VolumeNameMissing "app"; BindMountNotAllowed "app" ""]]) as T.
  assert (E1 : emits (validateComposeVersion dappnode_params rejected_compose) (Ok tt)
                 [VersionTooLow "3.0"]).
  { apply (emits_of_run _ _ (fresh_heap rejected_compose false) _ _
             (validateComposeVersion_writes _ _)); reflexivity. }
  assert (E2 : emits (validateComposeNetworks dappnode_params rejected_compose) (Ok tt)
                 [NetworkNotWhitelisted; NetworkNotExternal]).
  { apply (emits_of_run _ _ (fresh_heap rejected_compose false) _ _
             (validateComposeNetworks_writes _ _)); reflexivity. }
  assert (E3 : emits (service_rules dappnode_params rejected_compose false "app") (Ok Normal)
                 [VolumeNameMissing "app"; BindMountNotAllowed "app" ""]).
  { apply (emits_of_run _ _ (fresh_heap rejected_compose false) _ _
             (service_rules_writes _ _ _ _)); reflexivity. }
  specialize (T E1 E2).
  lapply T; [clear T; intros T | constructor; [exact E3 | constructor]].
  cbv zeta in T.
  destruct (validateDappnodeCompose dappnode_params (fresh_heap rejected_compose false))
    as [o h'].
  destruct T as (Herr & _ & Hthrow).
  destruct Hthrow as (Ho & before & Hmsg & Hbefore); [discriminate |].
  split; [exact Herr |]. split; [exact Ho |].
  exists before. split; [exact Hmsg | now apply Hbefore].
Defined.

(** C7 as stated fails twice over.  On the first failing run of a process the
    message of the aggregate is not the violation messages joined by newlines:
    it starts with a newline and each line carries the ["Error: "] prefix.
    And a rule can throw while rules are evaluated: for the compose file
    version ["3"], semver rejects ["3.0"] and the call ends with that
    TypeError. *)
Lemma rejection_message_counterexample :
  (let '(o, h') := validateDappnodeCompose dappnode_params (fresh_heap old_compose false) in
   o = Throws_aggregatedError
   /\ errors (aggregatedError h') = [VersionTooLow "3.0"]
   /\ message (aggregatedError h')
      = (LF ++ "Error: Compose version 3.0 is not supported. Minimum version is 3.4")%string
   /\ spec_rejection_message dappnode_params (errors (aggregatedError h'))
      = "Compose version 3.0 is not supported. Minimum version is 3.4"
   /\ message (aggregatedError h')
      <> spec_rejection_message dappnode_params (errors (aggregatedError h')))
  /\ fst (validateDappnodeCompose dappnode_params (fresh_heap bare_major_compose false))
     = Throws_TypeError (InvalidVersion "3.0") None.
Proof.
  vm_compute. repeat split. discriminate.
Qed.

(** ** The volume rule *)

Lemma emits_eq {A : Type} (m : M A) r vs vs' :
  emits m r vs -> vs = vs' -> emits m r vs'.
Proof. now intros E <-. Qed.

Lemma for_of_skip_prefix {A : Type} (body : A -> M completion) pre rest :
  (forall x, In x pre -> forall h, body x h = (Ok Normal, h)) ->
  forall h, for_of (pre ++ rest) body h = for_of rest body h.
Proof.
  induction pre as [| x pre IH]; intros Hskip h; simpl.
  - reflexivity.
  - unfold bind at 1. rewrite (Hskip x (or_introl eq_refl)).
    apply IH. intros y Hy. apply Hskip. now right.
Qed.

Lemma for_of_skip_middle {A : Type} (body : A -> M completion) e pre post :
  (forall h, body e h = (Ok Normal, h)) ->
  forall h, for_of (pre ++ e :: post) body h = for_of (pre ++ post) body h.
Proof.
  intros Hskip. induction pre as [| x pre IH]; intros h; simpl.
  - unfold bind at 1. now rewrite Hskip.
  - unfold bind. destruct (body x h) as [[[|] | err] h']; [apply IH | reflexivity ..].
Qed.

(** A falsy entry of the sequence is stepped over. *)
Lemma service_volume_body_falsy compose isCore cpServiceName v :
  truthy v = false ->
  forall h, service_volume_body compose isCore cpServiceName v h = (Ok Normal, h).
Proof.
  intros Hv h. unfold service_volume_body. now rewrite Hv.
Qed.

(** The rule, once the service and its volumes sequence are known, is the
    loop over that sequence. *)
Lemma volumes_rule_is_loop compose isCore cpServiceName cpService items :
  lookup cpServiceName (services compose) = Some cpService ->
  get cpService "volumes" = VArr items ->
  forall h,
    validateComposeAndComposeServicesVolumes compose isCore cpServiceName h
    = for_of items (service_volume_body compose isCore cpServiceName) h.
Proof.
  intros Hsvc Hvol h.
  unfold validateComposeAndComposeServicesVolumes, service_of.
  rewrite Hsvc. unfold bind at 1, lift at 1. cbv zeta. rewrite Hvol. reflexivity.
Qed.

(** C4.  If the compose has no top-level volume mapping, then for a service
    whose volumes sequence holds a mount (an entry that is not null or
    empty), the first such mount yields VolumeMissingTopLevelDefinition
    naming the service and the rule returns at once: that is the only
    violation it pushes, whatever follows in the sequence.  This holds for
    core and non-core packages alike. *)
Theorem volumes_without_top_level_mapping
  compose isCore cpServiceName cpService skipped mount following :
  lookup cpServiceName (services compose) = Some cpService ->
  get cpService "volumes" = VArr (skipped ++ mount :: following) ->
  Forall (fun v => truthy v = false) skipped ->
  truthy mount = true ->
  volumes compose = None ->
  emits (validateComposeAndComposeServicesVolumes compose isCore cpServiceName)
        (Ok tt) [VolumeMissingTopLevelDefinition cpServiceName].
Proof.
  intros Hsvc Hvol Hskipped Hmount Hnone h.
  rewrite (volumes_rule_is_loop _ _ _ _ _ Hsvc Hvol).
  rewrite for_of_skip_prefix.
  - simpl for_of. unfold bind at 1. unfold service_volume_body at 1.
    rewrite Hmount, Hnone. reflexivity.
  - intros x Hx. apply service_volume_body_falsy.
    rewrite Forall_forall in Hskipped. now apply Hskipped.
Qed.

Lemma volumes_without_top_level_mapping_witness :
  emits (validateComposeAndComposeServicesVolumes
           (compose_of_service "3.5"
              [("image", VStr "app:1.0.0");
               ("volumes", VArr [VNull; VStr "data:/data"; VStr "logs:/logs"])]
              None)
           true "app")
        (Ok tt) [VolumeMissingTopLevelDefinition "app"].
Proof.
  apply (volumes_without_top_level_mapping
           (compose_of_service "3.5"
              [("image", VStr "app:1.0.0");
               ("volumes", VArr [VNull; VStr "data:/data"; VStr "logs:/logs"])]
              None)
           true "app"
           [("image", VStr "app:1.0.0");
            ("volumes", VArr [VNull; VStr "data:/data"; VStr "logs:/logs"])]
           [VNull] (VStr "data:/data") [VStr "logs:/logs"]).
  - reflexivity.
  - reflexivity.
  - repeat constructor.
  - reflexivity.
  - reflexivity.
Defined.

(** C10.  An entry of a service's volumes sequence that is null or the empty
    string pushes nothing and lets the loop go on, with or without a
    top-level volume mapping; the rule does to the whole sequence what it
    does to the sequence without that entry. *)
Theorem null_or_empty_volume_is_skipped
  compose isCore cpServiceName cpService before entry after :
  entry = VNull \/ entry = VStr "" ->
  lookup cpServiceName (services compose) = Some cpService ->
  get cpService "volumes" = VArr (before ++ entry :: after) ->
  (forall h, service_volume_body compose isCore cpServiceName entry h = (Ok Normal, h))
  /\ (forall h,
        validateComposeAndComposeServicesVolumes compose isCore cpServiceName h
        = for_of (before ++ after) (service_volume_body compose isCore cpServiceName) h).
Proof.
  intros Hentry Hsvc Hvol.
  assert (Hskip : forall h,
             service_volume_body compose isCore cpServiceName entry h = (Ok Normal, h)).
  { apply service_volume_body_falsy. destruct Hentry as [-> | ->]; reflexivity. }
  split; [exact Hskip |].
  intros h. rewrite (volumes_rule_is_loop _ _ _ _ _ Hsvc Hvol).
  now apply for_of_skip_middle.
Qed.

Lemma null_or_empty_volume_is_skipped_witness :
  let compose :=
    compose_of_service "3.5" [("volumes", VArr [VStr ""; VNull])] None in
  (forall h, service_volume_body compose false "app" VNull h = (Ok Normal, h))
  /\ (forall h,
        validateComposeAndComposeServicesVolumes compose false "app" h
        = for_of [VStr ""] (service_volume_body compose false "app") h).
Proof.
  apply (null_or_empty_volume_is_skipped
           (compose_of_service "3.5" [("volumes", VArr [VStr ""; VNull])] None)
           false "app" [("volumes", VArr [VStr ""; VNull])] [VStr ""] VNull []).
  - left; reflexivity.
  - reflexivity.
  - reflexivity.
Defined.

(** C8, as the code has it.  For a non-empty mount string of a non-core
    service, with a top-level volume mapping present, the two checks are made
    one after the other and neither excludes the other.  An empty first
    segment yields VolumeNameMissing and, unless the top-level mapping has a
    volume whose name is the empty string, BindMountNotAllowed as well.  A
    non-empty first segment yields BindMountNotAllowed when the top-level
    mapping lacks it, and nothing when it is there. *)
Theorem volume_name_checks_are_independent compose cpServiceName mount cpVolumes :
  mount <> "" ->
  volumes compose = Some cpVolumes ->
  let volumeName := hd EmptyString (split ":" mount) in
  emits (service_volume_body compose false cpServiceName (VStr mount)) (Ok Normal)
        (if volumeName =? ""
         then VolumeNameMissing cpServiceName
                :: (if includes (map fst cpVolumes) ""
                    then [] else [BindMountNotAllowed cpServiceName ""])
         else if includes (map fst cpVolumes) volumeName
              then [] else [BindMountNotAllowed cpServiceName volumeName]).
Proof.
  intros Hmount Hvol volumeName.
  unfold service_volume_body.
  assert (Ht : truthy (VStr mount) = true).
  { simpl. now apply negb_true_iff, String.eqb_neq. }
  rewrite Ht, Hvol. simpl negb. cbv iota. unfold split_colon.
  eapply emits_eq.
  - eapply emits_bind; [apply emits_lift |]. cbv zeta.
    eapply emits_bind; [apply emits_when_push |].
    eapply emits_bind; [apply emits_when_push | apply emits_ret].
  - fold volumeName. simpl negb. rewrite andb_true_l.
    destruct (volumeName =? "") eqn:Hn.
    + apply String.eqb_eq in Hn. rewrite Hn.
      destruct (includes (map fst cpVolumes) ""); reflexivity.
    + destruct (includes (map fst cpVolumes) volumeName); reflexivity.
Qed.

Lemma volume_name_checks_are_independent_witness :
  emits (service_volume_body
           (compose_of_service "3.5" nameless_mount_service (Some [("data", VObj [])]))
           false "app" (VStr "data:/data"))
        (Ok Normal) [].
Proof.
  apply (volume_name_checks_are_independent
           (compose_of_service "3.5" nameless_mount_service (Some [("data", VObj [])]))
           "app" "data:/data" [("data", VObj [])]).
  - discriminate.
  - reflexivity.
Defined.

(** C8 as stated fails: the mount [":/data"] of a non-core service, with the
    top-level mapping [{data: {}}] present, yields VolumeNameMissing and
    BindMountNotAllowed together. *)
Lemma volume_name_checks_counterexample :
  let '(o, h') :=
    validateDappnodeCompose dappnode_params
      (fresh_heap
         (compose_of_service "3.5" nameless_mount_service (Some [("data", VObj [])]))
         false) in
  o = Throws_aggregatedError
  /\ errors (aggregatedError h')
     = [VolumeNameMissing "app"; BindMountNotAllowed "app" ""].
Proof. vm_compute. split; reflexivity. Qed.

(** ** The per-service value rule *)

Lemma some_all_false {A : Type} (f : A -> result bool) (xs : list A) :
  (forall x, In x xs -> f x = Ok false) -> some f xs = Ok false.
Proof.
  induction xs as [| x xs IH]; intros H; simpl; [reflexivity |].
  rewrite (H x (or_introl eq_refl)). apply IH. intros y Hy. apply H. now right.
Qed.

(** The four checks read a property off each value of the service; on a
    string, a number, a boolean or an array the property is undefined.  So a
    service made of such fields passes the rule whatever those fields say, be
    the package core or not. *)
Lemma value_rule_skips_plain_fields params compose isCore cpServiceName cpService :
  lookup cpServiceName (services compose) = Some cpService ->
  forallb (fun field => is_plain (snd field)) cpService = true ->
  emits (validateComposeServicesValues params compose isCore cpServiceName) (Ok tt) [].
Proof.
  intros Hsvc Hplain.
  assert (Hvals : forall v, In v (map snd cpService) -> is_plain v = true).
  { intros v Hv. apply in_map_iff in Hv as (field & <- & Hfield).
    rewrite forallb_forall in Hplain. now apply Hplain. }
  assert (H1 : some (dns_differs params) (map snd cpService) = Ok false).
  { apply some_all_false. intros v Hv. specialize (Hvals v Hv). now destruct v. }
  assert (H2 : some pid_unsafe (map snd cpService) = Ok false).
  { apply some_all_false. intros v Hv. specialize (Hvals v Hv). now destruct v. }
  assert (H3 : some is_privileged (map snd cpService) = Ok false).
  { apply some_all_false. intros v Hv. specialize (Hvals v Hv). now destruct v. }
  assert (H4 : some network_mode_host (map snd cpService) = Ok false).
  { apply some_all_false. intros v Hv. specialize (Hvals v Hv). now destruct v. }
  apply emits_nil_intro. intros h.
  unfold validateComposeServicesValues, service_of. rewrite Hsvc.
  unfold bind, lift. cbv zeta. rewrite H1, H2, H3, H4.
  destruct isCore; reflexivity.
Qed.

(** C1, what the code does.  The value rule reads [privileged] off each value
    of the service instead of off the service: for the non-core service
    [{image: "app:1.0.0", privileged: true}] it looks at ["app:1.0.0".privileged]
    and [true.privileged], both undefined, and pushes nothing, whatever the
    parameters; the whole validation accepts the compose. *)
Theorem privileged_service_is_accepted :
  (forall params,
      emits (validateComposeServicesValues params
               (compose_of_service "3.5" privileged_service None) false "app")
            (Ok tt) [])
  /\ validateDappnodeCompose dappnode_params
       (fresh_heap (compose_of_service "3.5" privileged_service None) false)
     = (Returns, fresh_heap (compose_of_service "3.5" privileged_service None) false).
Proof.
  split.
  - intros params.
    apply (value_rule_skips_plain_fields _ _ _ _ privileged_service); reflexivity.
  - reflexivity.
Qed.

(** C5, what the code does.  The value rule reads [dns] off each value of the
    service instead of off the service.  A service that sets [dns: "8.8.8.8"]
    is accepted, whatever the required DNS value; a service without [dns]
    whose environment has a variable called [dns] is reported. *)
Theorem dns_is_read_off_the_values :
  (forall params,
      emits (validateComposeServicesValues params
               (compose_of_service "3.5" custom_dns_service None) false "app")
            (Ok tt) [])
  /\ validateDappnodeCompose dappnode_params
       (fresh_heap (compose_of_service "3.5" custom_dns_service None) false)
     = (Returns, fresh_heap (compose_of_service "3.5" custom_dns_service None) false)
  /\ get env_dns_service "dns" = VUndefined
  /\ errors (aggregatedError
               (snd (validateDappnodeCompose dappnode_params
                       (fresh_heap (compose_of_service "3.5" env_dns_service None) false))))
     = [DnsMismatch "app"].
Proof.
  split; [| split; [| split]].
  - intros params.
    apply (value_rule_skips_plain_fields _ _ _ _ custom_dns_service); reflexivity.
  - reflexivity.
  - reflexivity.
  - reflexivity.
Qed.

(** ** The version rule *)

Lemma all_chars_app p (a b : string) :
  semver.all_chars p (a ++ b) = semver.all_chars p a && semver.all_chars p b.
Proof.
  induction a as [| c a IH]; simpl; [reflexivity | now rewrite IH, andb_assoc].
Qed.

Lemma all_chars_impl (p q : ascii -> bool) (s : string) :
  (forall c, p c = true -> q c = true) ->
  semver.all_chars p s = true -> semver.all_chars q s = true.
Proof.
  intros Hpq. induction s as [| c s IH]; simpl; [reflexivity |].
  intros H. apply andb_true_iff in H as [Hc Hs].
  now rewrite (Hpq _ Hc), IH.
Qed.

Lemma digit_facts (c : ascii) :
  semver.is_digit c = true ->
  semver.is_space c = false
  /\ Ascii.eqb c "v" = false
  /\ Ascii.eqb c "." = false
  /\ (Ascii.eqb c "0" = false -> (1 <= N_of_ascii c - 48)%N).
Proof.
  destruct c as [[] [] [] [] [] [] [] []]; intros H; try discriminate H;
    repeat split; try reflexivity; intros E; try discriminate E; vm_compute; discriminate.
Qed.

Lemma numeric_identifier_inv (s : string) (a : N) :
  semver.numeric_identifier s = Some a ->
  exists c rest,
    s = String c rest
    /\ semver.is_digit c = true
    /\ semver.all_chars semver.is_digit rest = true
    /\ (Ascii.eqb c "0" = false \/ rest = "")
    /\ a = semver.digits_value 0 s.
Proof.
  destruct s as [| c rest]; [discriminate |].
  unfold semver.numeric_identifier.
  destruct (semver.all_chars semver.is_digit (String c rest)) eqn:Hall; [| discriminate].
  simpl in Hall. apply andb_true_iff in Hall as [Hc Hrest].
  destruct (negb (Ascii.eqb c "0") || (rest =? "")) eqn:Hlead; [| discriminate].
  intros [= <-]. exists c, rest. repeat split; try assumption.
  apply orb_true_iff in Hlead as [H | H].
  - left. now apply negb_true_iff.
  - right. now apply String.eqb_eq.
Qed.

Lemma trim_end_no_space (s : string) :
  semver.all_chars (fun c => negb (semver.is_space c)) s = true ->
  semver.trim_end s = s.
Proof.
  induction s as [| c s IH]; simpl; [reflexivity |].
  intros H. apply andb_true_iff in H as [Hc Hs]. rewrite (IH Hs).
  apply negb_true_iff in Hc. rewrite Hc. now destruct s.
Qed.

Lemma span_digits_app (ds rest : string) :
  semver.all_chars semver.is_digit ds = true ->
  match rest with
  | EmptyString => True
  | String c _ => semver.is_digit c = false
  end ->
  semver.span_digits (ds ++ rest) = (ds, rest).
Proof.
  intros Hds Hrest. induction ds as [| c ds IH]; simpl.
  - destruct rest as [| c r]; simpl; [reflexivity | now rewrite Hrest].
  - simpl in Hds. apply andb_true_iff in Hds as [Hc Hds].
    now rewrite Hc, (IH Hds).
Qed.

Lemma digits_value_lower (s : string) (acc : N) :
  (acc * 10 ^ N.of_nat (String.length s) <= semver.digits_value acc s)%N.
Proof.
  revert acc. induction s as [| c s IH]; intros acc; simpl String.length.
  - simpl. lia.
  - cbn [semver.digits_value]. etransitivity; [| apply IH].
    rewrite Nat2N.inj_succ, N.pow_succ_r'. nia.
Qed.

(** A component within range has at most sixteen digits. *)
Lemma numeric_identifier_length (s : string) (a : N) :
  semver.numeric_identifier s = Some a ->
  (a <= semver.MAX_SAFE_INTEGER)%N ->
  String.length s <= 16.
Proof.
  intros Hs Ha.
  destruct (numeric_identifier_inv _ _ Hs) as (c & rest & -> & Hc & Hrest & Hlead & ->).
  destruct Hlead as [Hnz | ->]; [| simpl; lia].
  destruct (digit_facts c Hc) as (_ & _ & _ & Hd). specialize (Hd Hnz).
  cbn [semver.digits_value] in Ha. simpl String.length.
  pose proof (digits_value_lower rest (0 * 10 + (N_of_ascii c - 48))) as Hlow.
  destruct (le_lt_dec (String.length rest) 15) as [Hle | Hgt]; [lia | exfalso].
  assert (Hpow : (10 ^ 16 <= 10 ^ N.of_nat (String.length rest))%N)
    by (apply N.pow_le_mono_r; lia).
  unfold semver.MAX_SAFE_INTEGER in Ha.
  assert (H16 : (10 ^ 16 = 10000000000000000)%N) by reflexivity.
  nia.
Qed.

(** What semver reads in [a.b] once [".0"] is appended. *)
Lemma parse_major_minor (v : string) (a b : N) :
  major_minor v a b ->
  semver.parse (v ++ ".0")
  = Ok {| semver.major := a; semver.minor := b; semver.patch := 0;
          semver.prerelease := []; semver.build := [] |}.
Proof.
  intros (ma & mi & -> & Hma & Hmi & Ha & Hb).
  pose proof (numeric_identifier_length _ _ Hma Ha) as Lma.
  pose proof (numeric_identifier_length _ _ Hmi Hb) as Lmi.
  destruct (numeric_identifier_inv _ _ Hma) as (c & ra & Ema & Hc & Hra & _ & _).
  destruct (numeric_identifier_inv _ _ Hmi) as (d & rb & Emi & Hd & Hrb & _ & _).
  assert (Dma : semver.all_chars semver.is_digit ma = true)
    by (rewrite Ema; simpl; now rewrite Hc, Hra).
  assert (Dmi : semver.all_chars semver.is_digit mi = true)
    by (rewrite Emi; simpl; now rewrite Hd, Hrb).
  rewrite !append_assoc.
  unfold semver.parse.
  assert (Hlen : (semver.MAX_LENGTH <? String.length (ma ++ "." ++ mi ++ ".0"))%nat = false).
  { apply Nat.ltb_ge. rewrite !append_length. simpl String.length.
    unfold semver.MAX_LENGTH. lia. }
  rewrite Hlen.
  assert (Htrim : semver.trim (ma ++ "." ++ mi ++ ".0") = (ma ++ "." ++ mi ++ ".0")%string).
  { unfold semver.trim.
    assert (Hstart : semver.trim_start (ma ++ "." ++ mi ++ ".0")
                     = (ma ++ "." ++ mi ++ ".0")%string).
    { rewrite Ema. simpl. now rewrite (proj1 (digit_facts c Hc)). }
    rewrite Hstart. apply trim_end_no_space.
    assert (Hns : forall s, semver.all_chars semver.is_digit s = true ->
                            semver.all_chars (fun c => negb (semver.is_space c)) s = true).
    { intros s. apply all_chars_impl. intros x Hx.
      now rewrite (proj1 (digit_facts x Hx)). }
    rewrite !all_chars_app, (Hns _ Dma), (Hns _ Dmi). reflexivity. }
  rewrite Htrim.
  unfold semver.match_full.
  assert (Hv : semver.strip_v (ma ++ "." ++ mi ++ ".0") = (ma ++ "." ++ mi ++ ".0")%string).
  { rewrite Ema. simpl. now rewrite (proj1 (proj2 (digit_facts c Hc))). }
  rewrite Hv.
  rewrite (span_digits_app ma ("." ++ mi ++ ".0") Dma) by reflexivity.
  simpl semver.expect_dot. cbv beta iota.
  rewrite (span_digits_app mi ".0" Dmi) by reflexivity.
  simpl semver.expect_dot. cbv beta iota.
  change (semver.span_digits "0") with ("0", "").
  cbv beta iota. rewrite Hma, Hmi. simpl.
  apply N.ltb_ge in Ha. apply N.ltb_ge in Hb. rewrite Ha, Hb. reflexivity.
Qed.

Lemma lt_major_minor (v w : string) (a b x y : N) :
  major_minor v a b ->
  major_minor w x y ->
  semver.lt (v ++ ".0") (w ++ ".0") = Ok ((a <? x) || ((a =? x) && (b <? y)))%N.
Proof.
  intros Hv Hw. unfold semver.lt.
  rewrite (parse_major_minor _ _ _ Hv), (parse_major_minor _ _ _ Hw).
  unfold semver.compare, semver.compareMain, semver.comparePre. simpl.
  f_equal.
  destruct (N.compare_spec a x) as [-> | Hax | Hax]; simpl.
  - rewrite N.ltb_irrefl, N.eqb_refl. simpl.
    destruct (N.compare_spec b y) as [-> | Hby | Hby]; simpl.
    + now rewrite N.ltb_irrefl.
    + symmetry. now apply N.ltb_lt.
    + symmetry. apply N.ltb_ge. lia.
  - apply N.ltb_lt in Hax. now rewrite Hax.
  - assert (H1 : (a <? x)%N = false) by (apply N.ltb_ge; lia).
    assert (H2 : (a =? x)%N = false) by (apply N.eqb_neq; lia).
    now rewrite H1, H2.
Qed.

(** C2, as the code has it.  When the declared version and the minimum both
    read major.minor, the rule appends [".0"] to each and compares them by
    semantic-version precedence, that is, by major and then minor number: it
    pushes exactly one VersionTooLow when the declared version is strictly
    below the minimum, and nothing otherwise. *)
Theorem version_rule_on_major_minor params compose a b x y :
  major_minor (version compose) a b ->
  major_minor (MINIMUM_COMPOSE_FILE_VERSION params) x y ->
  emits (validateComposeVersion params compose) (Ok tt)
        (if ((a <? x) || ((a =? x) && (b <? y)))%N
         then [VersionTooLow (version compose)]
         else []).
Proof.
  intros Hv Hm. unfold validateComposeVersion.
  rewrite (lt_major_minor _ _ _ _ _ _ Hv Hm).
  eapply emits_eq.
  - eapply emits_bind; [apply emits_lift | apply emits_when_push].
  - reflexivity.
Qed.

Lemma version_rule_on_major_minor_witness :
  emits (validateComposeVersion dappnode_params old_compose) (Ok tt) [VersionTooLow "3.0"]
  /\ emits (validateComposeVersion dappnode_params mynet_compose) (Ok tt) [].
Proof.
  split.
  - apply (version_rule_on_major_minor dappnode_params old_compose 3 0 3 4).
    + exists "3", "0". repeat split; try reflexivity; vm_compute; discriminate.
    + exists "3", "4". repeat split; try reflexivity; vm_compute; discriminate.
  - apply (version_rule_on_major_minor dappnode_params mynet_compose 3 5 3 4).
    + exists "3", "5". repeat split; try reflexivity; vm_compute; discriminate.
    + exists "3", "4". repeat split; try reflexivity; vm_compute; discriminate.
Defined.

(** C2 as stated fails: [".0"] is appended whether or not a patch number is
    there.  By the spec's normalisation a declared ["3.4.0"] equals the
    minimum ["3.4"] and passes; the code hands semver ["3.4.0.0"], which is no
    version, and the run ends with semver's TypeError. *)
Lemma version_rule_counterexample :
  spec_normalize "3.4" = "3.4.0"
  /\ spec_normalize "3.4.0" = "3.4.0"
  /\ spec_version_rule "3.4" "3.4.0" = Ok []
  /\ validateDappnodeCompose dappnode_params (fresh_heap patch_version_compose false)
     = (Throws_TypeError (InvalidVersion "3.4.0.0") None,
        fresh_heap patch_version_compose false).
Proof. vm_compute. repeat split. Qed.

(* ================================================================== *)
(** * Further properties of the rules *)

(** ** Membership *)

Lemma includes_In (xs : list string) (s : string) :
  includes xs s = true <-> In s xs.
Proof.
  unfold includes. rewrite existsb_exists. split.
  - intros (x & Hx & E). apply String.eqb_eq in E. now subst.
  - intros H. exists s. split; [exact H | apply String.eqb_refl].
Qed.

Lemma includes_not_In (xs : list string) (s : string) :
  includes xs s = false <-> ~ In s xs.
Proof.
  rewrite <- includes_In. destruct (includes xs s); split; congruence.
Qed.

Lemma lookup_In {A : Type} (key : string) (o : list (string * A)) (v : A) :
  lookup key o = Some v -> In (key, v) o.
Proof.
  induction o as [| [k x] o IH]; simpl; [discriminate |].
  destruct (String.eqb_spec k key) as [-> | _].
  - intros [= ->]. now left.
  - intros H. right. now apply IH.
Qed.

(** ** The allowed-keys rule *)

(** X1.  The keys rule reports a service once, however many of its keys are
    outside the safe list, and not at all when all its keys are in it. *)
Theorem keys_rule_reports_service_once params compose cpServiceName cpService :
  lookup cpServiceName (services compose) = Some cpService ->
  ((forall key, In key (map fst cpService) -> In key (SAFE_KEYS params)) ->
   emits (validateComposeServicesKeys params compose cpServiceName) (Ok tt) [])
  /\ ((exists key, In key (map fst cpService) /\ ~ In key (SAFE_KEYS params)) ->
      emits (validateComposeServicesKeys params compose cpServiceName) (Ok tt)
            [ServiceKeyNotAllowed cpServiceName]).
Proof.
  intros Hsvc.
  assert (E : forall b,
             existsb (fun k => negb (includes (SAFE_KEYS params) k)) (map fst cpService) = b ->
             emits (validateComposeServicesKeys params compose cpServiceName) (Ok tt)
                   (if b then [ServiceKeyNotAllowed cpServiceName] else [])).
  { intros b Hb. unfold validateComposeServicesKeys, service_of. rewrite Hsvc.
    eapply emits_eq.
    - eapply emits_bind; [apply emits_lift |]. cbv zeta. rewrite Hb.
      apply emits_when_push.
    - reflexivity. }
  split.
  - intros Hall. apply (E false).
    apply not_true_is_false. intros Hex. apply existsb_exists in Hex as (k & Hk & Hn).
    apply negb_true_iff, includes_not_In in Hn. exact (Hn (Hall k Hk)).
  - intros (k & Hk & Hn). apply (E true).
    apply existsb_exists. exists k. split; [exact Hk |].
    now apply negb_true_iff, includes_not_In.
Qed.

Lemma keys_rule_reports_service_once_witness :
  emits (validateComposeServicesKeys dappnode_params
           (compose_of_service "3.5"
              [("image", VStr "app:1.0.0"); ("sysctls", VArr []); ("ipc", VStr "host")] None)
           "app")
        (Ok tt) [ServiceKeyNotAllowed "app"].
Proof.
  apply (proj2 (keys_rule_reports_service_once dappnode_params
                  (compose_of_service "3.5"
                     [("image", VStr "app:1.0.0"); ("sysctls", VArr []); ("ipc", VStr "host")]
                     None)
                  "app"
                  [("image", VStr "app:1.0.0"); ("sysctls", VArr []); ("ipc", VStr "host")]
                  eq_refl)).
  exists "ipc". split.
  - simpl. auto.
  - intros H. apply includes_In in H. discriminate H.
Defined.

(** ** Top-level networks: what passes *)

(** X2.  The network rule accepts a top-level mapping whose names are all
    whitelisted, whose networks all have a definition, and in which no
    network says [external: false]; a network whose definition does not say
    [external] at all is among those it accepts. *)
Theorem networks_rule_accepts_unless_external_false params compose cpNetworks :
  networks compose = Some cpNetworks ->
  (forall networkName network,
      In (networkName, network) cpNetworks ->
      In networkName (DOCKER_WHITELIST_NETWORKS params)
      /\ network <> VNull /\ network <> VUndefined
      /\ (forall definition,
            network = VObj definition -> get definition "external" <> VBool false)) ->
  emits (validateComposeNetworks params compose) (Ok tt) [].
Proof.
  intros Hnet Hall. unfold validateComposeNetworks. rewrite Hnet.
  assert (B1 : existsb
                 (fun n => negb (includes (DOCKER_WHITELIST_NETWORKS params) n))
                 (map fst cpNetworks) = false).
  { apply not_true_is_false. intros Hex.
    apply existsb_exists in Hex as (n & Hn & Hout).
    apply in_map_iff in Hn as ([n' def] & <- & Hin).
    apply negb_true_iff, includes_not_In in Hout.
    exact (Hout (proj1 (Hall _ _ Hin))). }
  assert (B2 : some external_is_false (map snd cpNetworks) = Ok false).
  { apply some_all_false. intros network Hnetwork.
    apply in_map_iff in Hnetwork as ([n network'] & <- & Hin).
    destruct (Hall _ _ Hin) as (_ & Hnull & Hundef & Hext).
    unfold external_is_false. simpl snd.
    destruct network' as [| | | | | | definition]; try congruence; try reflexivity.
    simpl. specialize (Hext definition eq_refl).
    destruct (get definition "external") as [| | [|] | | | |]; try reflexivity.
    congruence. }
  rewrite B1, B2. eapply emits_eq.
  - eapply emits_bind; [apply emits_ret |].
    eapply emits_bind; [apply emits_lift | apply emits_ret].
  - reflexivity.
Qed.

Lemma networks_rule_accepts_unless_external_false_witness :
  emits (validateComposeNetworks dappnode_params
           {| version := "3.5"; services := [];
              networks := Some [("dncore_network", VObj [("name", VStr "dncore_network")])];
              volumes := None |})
        (Ok tt) [].
Proof.
  apply (networks_rule_accepts_unless_external_false dappnode_params
           {| version := "3.5"; services := [];
              networks := Some [("dncore_network", VObj [("name", VStr "dncore_network")])];
              volumes := None |}
           [("dncore_network", VObj [("name", VStr "dncore_network")])] eq_refl).
  intros networkName network [H | []]. injection H as <- <-.
  repeat split; try discriminate.
  - simpl. auto.
  - intros definition [= <-]. discriminate.
Defined.

(** ** Order of the collected violations *)

Lemma validateComposeVersion_emits params compose :
  exists r (b : bool),
    emits (validateComposeVersion params compose) r
          (if b then [VersionTooLow (version compose)] else []).
Proof.
  unfold validateComposeVersion.
  destruct (semver.lt (version compose ++ ".0")
              (MINIMUM_COMPOSE_FILE_VERSION params ++ ".0")) as [tooLow | e] eqn:Hlt.
  - exists (Ok tt), tooLow. eapply emits_eq.
    + eapply emits_bind; [apply emits_lift | apply emits_when_push].
    + reflexivity.
  - exists (Throw e), false. apply emits_bind_throw, emits_lift.
Qed.

(** X3.  However a run ends, the collector holds the top-level violations
    first and in rule order (VersionTooLow for the declared version, then
    NetworkNotWhitelisted, then NetworkNotExternal, each at most once),
    followed by violations that all name a service. *)
Theorem top_level_violations_come_first params h :
  exists (b1 b2 b3 : bool) rest,
    errors (aggregatedError (snd (validateDappnodeCompose params h)))
    = (if b1 then [VersionTooLow (version (composeUnsafe h))] else [])
        ++ (if b2 then [NetworkNotWhitelisted] else [])
        ++ (if b3 then [NetworkNotExternal] else [])
        ++ rest
    /\ Forall names_service rest.
Proof.
  set (c := composeUnsafe h). set (core := getIsCore (manifest h)).
  destruct (validateComposeVersion_emits params c) as (r1 & b1 & E1).
  destruct r1 as [[] | e].
  - destruct (validateComposeNetworks_emits params c) as (r2 & v2 & E2 & P2).
    assert (E : exists r3 v3,
               emits (run_rules params c core) r3
                 ((if b1 then [VersionTooLow (version c)] else []) ++ v2 ++ v3)
               /\ Forall names_service v3).
    { destruct r2 as [[] | e2].
      - destruct (writes_for_of names_service (map fst (services c))
                    (service_rules params c core)
                    (service_rules_writes params c core)) as (r3 & v3 & P3 & E3).
        exists r3, v3. split; [| exact P3].
        unfold run_rules. eapply emits_bind; [exact E1 |].
        eapply emits_bind; [exact E2 | exact E3].
      - exists (Throw e2), []. split; [| constructor].
        unfold run_rules. rewrite app_nil_r.
        eapply emits_bind; [exact E1 |]. now apply emits_bind_throw. }
    destruct E as (r3 & v3 & E & P3).
    rewrite (validateDappnodeCompose_errors _ _ _ _ E).
    destruct P2 as [-> | [-> | [-> | ->]]].
    + exists b1, false, false, v3. now split.
    + exists b1, true, false, v3. now split.
    + exists b1, false, true, v3. now split.
    + exists b1, true, true, v3. now split.
  - assert (E : emits (run_rules params c core) (Throw e)
                  (if b1 then [VersionTooLow (version c)] else [])).
    { unfold run_rules. now apply emits_bind_throw. }
    rewrite (validateDappnodeCompose_errors _ _ _ _ E).
    exists b1, false, false, []. split; [| constructor].
    simpl. now rewrite app_nil_r.
Qed.

(** ** How a run ends and what it leaves in the aggregate *)

(** X4.  A normal return means nothing was collected, and the message of the
    shared aggregate is as before.  A rejection means something was
    collected, and the message the aggregate had before the call is kept,
    twice, in front of the newline and the joined errors: no run ever clears
    it.  A TypeError from a rule leaves the message alone and carries the
    joined errors only if some were collected before it was raised. *)
Theorem run_outcome_and_message params h :
  let '(o, h') := validateDappnodeCompose params h in
  let before := message (aggregatedError h) in
  let collected := errors (aggregatedError h') in
  match o with
  | Returns =>
      collected = [] /\ message (aggregatedError h') = before
  | Throws_aggregatedError =>
      collected <> []
      /\ message (aggregatedError h')
         = (before ++ before ++ LF ++ join_errors params collected)%string
  | Throws_TypeError _ appended =>
      message (aggregatedError h') = before
      /\ appended = match collected with
                    | [] => None
                    | _ :: _ => Some (LF ++ join_errors params collected)%string
                    end
  end.
Proof.
  destruct (run_rules_writes params (composeUnsafe h) (getIsCore (manifest h)))
    as (r & vs & _ & E).
  rewrite (validateDappnodeCompose_run _ _ _ _ E). cbv zeta.
  destruct r as [[] | e]; destruct vs as [| v vs]; simpl; split;
    try reflexivity; discriminate.
Qed.

(** ** What a core package is exempt from *)

Lemma writes_bind_lift_ok {A B : Type} P (a : A) (k : A -> M B) :
  writes P (k a) -> writes P (bind (lift (Ok a)) k).
Proof.
  intros (r & vs & Pvs & E). exists r, vs. split; [exact Pvs |].
  intros h. exact (E h).
Qed.

Lemma writes_when_false P (m : M unit) : writes P (when false m).
Proof. apply writes_ret. Qed.

Ltac core_walk :=
  repeat first
    [ match goal with
      | |- writes _ (bind (lift (Ok _)) _) => apply writes_bind_lift_ok; cbv beta
      | |- writes _ (when false _) => apply writes_when_false
      end
    | writes_step ].

Lemma service_rules_core_writes params compose cpServiceName :
  writes (fun v => ~ core_only v) (service_rules params compose true cpServiceName).
Proof.
  unfold service_rules, validateComposeServicesKeys, validateComposeServicesValues,
    validateComposeServicesNetworks, validateComposeAndComposeServicesVolumes,
    service_network_body, service_volume_body.
  simpl negb. cbv iota zeta. core_walk.
Qed.

(** X5.  On a core package no run collects PrivilegedNotAllowed,
    NetworkModeHostNotAllowed, ReservedAliasUsed or BindMountNotAllowed,
    whatever the compose holds. *)
Theorem core_package_is_exempt params h :
  getIsCore (manifest h) = true ->
  Forall (fun v => ~ core_only v)
         (errors (aggregatedError (snd (validateDappnodeCompose params h)))).
Proof.
  intros Hcore.
  assert (W : writes (fun v => ~ core_only v)
                (run_rules params (composeUnsafe h) (getIsCore (manifest h)))).
  { rewrite Hcore. unfold run_rules. apply writes_bind.
    { eapply writes_weaken; [| apply validateComposeVersion_writes].
      intros v [d ->]. simpl. auto. }
    intros _. apply writes_bind.
    { eapply writes_weaken; [| apply validateComposeNetworks_writes].
      intros v [-> | ->]; simpl; auto. }
    intros _. cbv zeta. apply writes_for_of. intros x.
    apply service_rules_core_writes. }
  destruct W as (r & vs & Pvs & E).
  now rewrite (validateDappnodeCompose_errors _ _ _ _ E).
Qed.

Lemma core_package_is_exempt_witness :
  Forall (fun v => ~ core_only v)
         (errors (aggregatedError
                    (snd (validateDappnodeCompose dappnode_params
                            (fresh_heap rejected_compose true))))).
Proof.
  apply (core_package_is_exempt dappnode_params (fresh_heap rejected_compose true)).
  reflexivity.
Defined.

(** ** Versions the version rule cannot read *)

Lemma trim_no_space (s : string) :
  semver.all_chars (fun c => negb (semver.is_space c)) s = true ->
  semver.trim s = s.
Proof.
  intros H. unfold semver.trim.
  assert (Hstart : semver.trim_start s = s).
  { destruct s as [| c s]; [reflexivity |]. simpl in H |- *.
    apply andb_true_iff in H as [Hc _]. apply negb_true_iff in Hc. now rewrite Hc. }
  rewrite Hstart. now apply trim_end_no_space.
Qed.

Lemma digits_no_space (s : string) :
  semver.all_chars semver.is_digit s = true ->
  semver.all_chars (fun c => negb (semver.is_space c)) s = true.
Proof.
  apply all_chars_impl. intros c Hc. now rewrite (proj1 (digit_facts c Hc)).
Qed.

Lemma strip_v_digits_then (ds rest : string) :
  semver.all_chars semver.is_digit ds = true ->
  match rest with
  | EmptyString => True
  | String c _ => Ascii.eqb c "v" = false
  end ->
  semver.strip_v (ds ++ rest) = (ds ++ rest)%string.
Proof.
  destruct ds as [| c ds]; simpl.
  - intros _ Hrest. destruct rest as [| c r]; simpl; [reflexivity | now rewrite Hrest].
  - intros H _. apply andb_true_iff in H as [Hc _].
    now rewrite (proj1 (proj2 (digit_facts c Hc))).
Qed.

(** The strict pattern wants exactly three numbers. *)
Lemma match_full_two_or_four_numbers (v : string) :
  semver.all_chars semver.is_digit v = true
  \/ (exists a b c,
         v = (a ++ "." ++ b ++ "." ++ c)%string
         /\ semver.all_chars semver.is_digit a = true
         /\ semver.all_chars semver.is_digit b = true
         /\ semver.all_chars semver.is_digit c = true) ->
  semver.trim (v ++ ".0") = (v ++ ".0")%string
  /\ semver.match_full (v ++ ".0") = None.
Proof.
  intros [Hv | (a & b & c & -> & Ha & Hb & Hc)].
  - split.
    + apply trim_no_space. rewrite all_chars_app, (digits_no_space _ Hv). reflexivity.
    + unfold semver.match_full.
      rewrite (strip_v_digits_then v ".0" Hv) by reflexivity.
      rewrite (span_digits_app v ".0" Hv) by reflexivity.
      reflexivity.
  - rewrite !append_assoc. split.
    + apply trim_no_space.
      rewrite !all_chars_app, (digits_no_space _ Ha), (digits_no_space _ Hb),
        (digits_no_space _ Hc). reflexivity.
    + unfold semver.match_full.
      rewrite (strip_v_digits_then a _ Ha) by reflexivity.
      rewrite (span_digits_app a ("." ++ b ++ "." ++ c ++ ".0") Ha) by reflexivity.
      simpl semver.expect_dot. cbv beta iota.
      rewrite (span_digits_app b (String "." (c ++ ".0")) Hb) by reflexivity.
      simpl semver.expect_dot. cbv beta iota.
      rewrite (span_digits_app c ".0" Hc) by reflexivity.
      cbv beta iota.
      destruct (semver.numeric_identifier a); [| reflexivity].
      destruct (semver.numeric_identifier b); [| reflexivity].
      destruct (semver.numeric_identifier c); reflexivity.
Qed.

(** X6.  A declared version that is a bare number (as in [version: "3"]) or
    that already has a patch number (as in ["3.4.0"]) makes the version rule
    throw: the run ends with semver's TypeError for the version with [".0"]
    appended, before any other rule has run and with nothing collected. *)
Theorem unreadable_version_aborts_the_run params h :
  let v := version (composeUnsafe h) in
  semver.all_chars semver.is_digit v = true
  \/ (exists a b c,
         v = (a ++ "." ++ b ++ "." ++ c)%string
         /\ semver.all_chars semver.is_digit a = true
         /\ semver.all_chars semver.is_digit b = true
         /\ semver.all_chars semver.is_digit c = true) ->
  validateDappnodeCompose params h
  = (Throws_TypeError (InvalidVersion (v ++ ".0")) None, set_errors [] h).
Proof.
  intros v Hshape.
  destruct (match_full_two_or_four_numbers v Hshape) as [Htrim Hnone].
  assert (Hparse : semver.parse (v ++ ".0") = Throw (InvalidVersion (v ++ ".0"))).
  { unfold semver.parse. rewrite Htrim, Hnone.
    now destruct (semver.MAX_LENGTH <? String.length (v ++ ".0"))%nat. }
  assert (E : emits (run_rules params (composeUnsafe h) (getIsCore (manifest h)))
                (Throw (InvalidVersion (v ++ ".0"))) []).
  { unfold run_rules, validateComposeVersion.
    apply emits_bind_throw, emits_bind_throw.
    fold v. unfold semver.lt. rewrite Hparse. apply emits_lift. }
  now rewrite (validateDappnodeCompose_run _ _ _ _ E).
Qed.

Lemma unreadable_version_aborts_the_run_witness :
  validateDappnodeCompose dappnode_params (fresh_heap bare_major_compose false)
  = (Throws_TypeError (InvalidVersion "3.0") None,
     set_errors [] (fresh_heap bare_major_compose false))
  /\ validateDappnodeCompose dappnode_params (fresh_heap patch_version_compose true)
     = (Throws_TypeError (InvalidVersion "3.4.0.0") None,
        set_errors [] (fresh_heap patch_version_compose true)).
Proof.
  split.
  - apply (unreadable_version_aborts_the_run dappnode_params
             (fresh_heap bare_major_compose false)).
    left. reflexivity.
  - apply (unreadable_version_aborts_the_run dappnode_params
             (fresh_heap patch_version_compose true)).
    right. exists "3", "4", "0". repeat split.
Defined.

(** ** The value rule on an empty field *)

Lemma some_skip_prefix {A : Type} (f : A -> result bool) (pre rest : list A) :
  (forall x, In x pre -> f x = Ok false) ->
  some f (pre ++ rest) = some f rest.
Proof.
  induction pre as [| x pre IH]; intros H; simpl; [reflexivity |].
  rewrite (H x (or_introl eq_refl)). apply IH. intros y Hy. apply H. now right.
Qed.

(** X7.  A key without a value (null, as YAML reads [environment:] with
    nothing after it) makes the value rule throw on its first check, with
    nothing pushed, when the fields before it are scalars or lists; this is
    so for core and non-core packages. *)
Theorem null_field_makes_value_rule_throw
  params compose isCore cpServiceName before key after :
  lookup cpServiceName (services compose) = Some (before ++ (key, VNull) :: after) ->
  forallb (fun field => is_plain (snd field)) before = true ->
  emits (validateComposeServicesValues params compose isCore cpServiceName)
        (Throw NullishAccess) [].
Proof.
  intros Hsvc Hplain.
  unfold validateComposeServicesValues, service_of. rewrite Hsvc.
  apply emits_nil_intro. intros h. unfold bind, lift. cbv zeta.
  rewrite map_app, some_skip_prefix; [reflexivity |].
  intros v Hv. apply in_map_iff in Hv as (field & <- & Hfield).
  rewrite forallb_forall in Hplain. specialize (Hplain _ Hfield).
  now destruct (snd field).
Qed.

Lemma null_field_makes_value_rule_throw_witness :
  emits (validateComposeServicesValues dappnode_params
           (compose_of_service "3.5"
              [("image", VStr "app:1.0.0"); ("environment", VNull); ("privileged", VBool true)]
              None)
           true "app")
        (Throw NullishAccess) [].
Proof.
  apply (null_field_makes_value_rule_throw dappnode_params
           (compose_of_service "3.5"
              [("image", VStr "app:1.0.0"); ("environment", VNull); ("privileged", VBool true)]
              None)
           true "app" [("image", VStr "app:1.0.0")] "environment"
           [("privileged", VBool true)]).
  - reflexivity.
  - reflexivity.
Defined.

(** ** The per-service network rule *)

Lemma map_result_chars_aliases (s : string) :
  exists aliases,
    map_result (fun networks => prop networks "aliases") (chars s) = Ok aliases
    /\ Forall (fun alias => alias = VUndefined) aliases.
Proof.
  induction s as [| c s (aliases & E & F)]; simpl.
  - exists []. split; [reflexivity | constructor].
  - rewrite E. exists (VUndefined :: aliases). split; [reflexivity | now constructor].
Qed.

Lemma uses_core_alias_string params (s : string) :
  uses_core_alias params (VStr s) = Ok false.
Proof.
  unfold uses_core_alias. simpl Object_values.
  destruct (map_result_chars_aliases s) as (aliases & -> & F).
  f_equal. induction F as [| alias aliases -> _ IH]; [reflexivity | exact IH].
Qed.

Lemma index_keys_head (n : nat) : In "0" (index_keys (S n)).
Proof. unfold index_keys. simpl. now left. Qed.

(** X8.  A network given to a service as a bare name is reported as
    non-whitelisted whether or not the name is on the whitelist (provided
    the whitelist has no network called ["0"]): a name outside the whitelist
    is reported by the first branch, and a name on it falls to the branch
    for objects, where the keys looked up in the whitelist are the positions
    of its characters.  Exactly one violation is pushed, for core and
    non-core packages. *)
Theorem bare_network_name_is_always_reported params isCore cpServiceName networkName :
  networkName <> "" ->
  ~ In "0" (DOCKER_WHITELIST_NETWORKS params) ->
  emits (service_network_body params isCore cpServiceName (VStr networkName))
        (Ok Normal) [ServiceNetworkNotWhitelisted cpServiceName].
Proof.
  intros Hne H0. unfold service_network_body.
  assert (Ht : truthy (VStr networkName) = true)
    by (simpl; now apply negb_true_iff, String.eqb_neq).
  rewrite Ht. simpl negb. cbv iota. simpl typeof_string. rewrite andb_true_l.
  simpl includes_value.
  destruct (includes (DOCKER_WHITELIST_NETWORKS params) networkName); simpl negb; cbv iota.
  - simpl Object_keys.
    assert (Hkeys : existsb
                      (fun network => negb (includes (DOCKER_WHITELIST_NETWORKS params) network))
                      (index_keys (String.length networkName)) = true).
    { apply existsb_exists. exists "0". split.
      - destruct networkName as [| c s]; [congruence |]. apply index_keys_head.
      - now apply negb_true_iff, includes_not_In. }
    assert (Halias : (if negb isCore then uses_core_alias params (VStr networkName)
                      else Ok false) = Ok false).
    { destruct isCore; [reflexivity | apply uses_core_alias_string]. }
    eapply emits_eq.
    + eapply emits_bind; [apply emits_lift |]. rewrite Hkeys.
      eapply emits_bind; [apply emits_when_push |].
      rewrite Halias.
      eapply emits_bind; [apply emits_lift |].
      eapply emits_bind; [apply emits_when_push | apply emits_ret].
    + reflexivity.
  - eapply emits_eq.
    + eapply emits_bind; [apply emits_push | apply emits_ret].
    + reflexivity.
Qed.

Lemma bare_network_name_is_always_reported_witness :
  includes (DOCKER_WHITELIST_NETWORKS dappnode_params) "dncore_network" = true
  /\ emits (service_network_body dappnode_params false "app" (VStr "dncore_network"))
           (Ok Normal) [ServiceNetworkNotWhitelisted "app"].
Proof.
  split; [reflexivity |].
  apply (bare_network_name_is_always_reported dappnode_params false "app" "dncore_network").
  - discriminate.
  - intros H. apply includes_In in H. discriminate H.
Defined.

Lemma map_result_total {A B : Type} (f : A -> result B) (xs : list A) :
  (forall x, In x xs -> exists y, f x = Ok y) ->
  exists ys,
    map_result f xs = Ok ys
    /\ (forall x y, In x xs -> f x = Ok y -> In y ys).
Proof.
  induction xs as [| x xs IH]; intros H; simpl.
  - exists []. split; [reflexivity | intros x y []].
  - destruct (H x (or_introl eq_refl)) as (y & Hy).
    destruct IH as (ys & E & Hys); [intros z Hz; apply H; now right |].
    rewrite Hy, E. exists (y :: ys). split; [reflexivity |].
    intros z w [<- | Hz] Hw.
    + left. congruence.
    + right. eapply Hys; eassumption.
Qed.

(** X9.  For a non-core package, a network entry in object form in which
    some network lists a reserved alias is reported with ReservedAliasUsed,
    after the whitelist check of the entry's keys, provided no network of
    the entry is left without a value. *)
Theorem reserved_alias_is_reported
  params cpServiceName entry networkName network aliases alias :
  Forall (fun field => snd field <> VNull /\ snd field <> VUndefined) entry ->
  In (networkName, VObj network) entry ->
  get network "aliases" = VArr aliases ->
  In (VStr alias) aliases ->
  alias <> "" ->
  In alias (DOCKER_CORE_ALIASES params) ->
  emits (service_network_body params false cpServiceName (VObj entry)) (Ok Normal)
        ((if existsb
               (fun name => negb (includes (DOCKER_WHITELIST_NETWORKS params) name))
               (map fst entry)
          then [ServiceNetworkNotWhitelisted cpServiceName] else [])
           ++ [ReservedAliasUsed cpServiceName]).
Proof.
  intros Hvals Hin Haliases Halias Hne Hcore.
  assert (Huses : uses_core_alias params (VObj entry) = Ok true).
  { unfold uses_core_alias. simpl Object_values.
    destruct (map_result_total (fun networks => prop networks "aliases") (map snd entry))
      as (found & -> & Hfound).
    { intros v Hv. apply in_map_iff in Hv as (field & <- & Hfield).
      rewrite Forall_forall in Hvals. destruct (Hvals _ Hfield) as [Hn Hu].
      destruct (snd field); try congruence; eexists; reflexivity. }
    f_equal. apply existsb_exists. exists (VStr alias). split.
    - unfold flat. apply in_flat_map. exists (VArr aliases). split; [| exact Halias].
      apply (Hfound (VObj network)).
      + change (VObj network) with (snd (networkName, VObj network)). now apply in_map.
      + simpl. now rewrite Haliases.
    - simpl. apply andb_true_iff. split.
      + now apply negb_true_iff, String.eqb_neq.
      + now apply includes_In. }
  unfold service_network_body. simpl truthy. simpl negb. cbv iota.
  simpl typeof_string. rewrite andb_false_l. simpl Object_keys. rewrite Huses.
  eapply emits_eq.
  - eapply emits_bind; [apply emits_lift |].
    eapply emits_bind; [apply emits_when_push |].
    eapply emits_bind; [apply emits_lift |].
    eapply emits_bind; [apply emits_when_push | apply emits_ret].
  - destruct (existsb _ (map fst entry)); reflexivity.
Qed.

Lemma reserved_alias_is_reported_witness :
  emits (service_network_body dappnode_params false "app"
           (VObj [("dncore_network", VObj [("aliases", VArr [VStr "ipfs.dappnode"])])]))
        (Ok Normal) [ReservedAliasUsed "app"].
Proof.
  apply (reserved_alias_is_reported dappnode_params "app"
           [("dncore_network", VObj [("aliases", VArr [VStr "ipfs.dappnode"])])]
           "dncore_network" [("aliases", VArr [VStr "ipfs.dappnode"])]
           [VStr "ipfs.dappnode"] "ipfs.dappnode").
  - repeat constructor; discriminate.
  - simpl. auto.
  - reflexivity.
  - simpl. auto.
  - discriminate.
  - simpl. auto 10.
Defined.

(** ** Networks of a service in mapping form *)

Lemma always_throws_bind_first {A B : Type} (m : M A) (k : A -> M B) :
  always_throws m -> always_throws (bind m k).
Proof.
  intros Hm h. destruct (Hm h) as (e & He). exists e. unfold bind.
  destruct (m h) as [[a | e'] h']; simpl in He |- *; [discriminate | congruence].
Qed.

Lemma always_throws_bind_next {A B : Type} (m : M A) (k : A -> M B) :
  (forall a, always_throws (k a)) -> always_throws (bind m k).
Proof.
  intros Hk h. unfold bind. destruct (m h) as [[a | e] h'].
  - apply Hk.
  - now exists e.
Qed.

Lemma never_returns_bind {A B : Type} (m : M A) (k : A -> M B) (c : B) :
  (forall a h, fst (k a h) <> Ok c) -> forall h, fst (bind m k h) <> Ok c.
Proof.
  intros Hk h. unfold bind. destruct (m h) as [[a | e] h'].
  - apply Hk.
  - discriminate.
Qed.

Lemma service_rules_never_returns params compose isCore cpServiceName h :
  fst (service_rules params compose isCore cpServiceName h) <> Ok Return.
Proof.
  unfold service_rules. revert h.
  do 4 (apply never_returns_bind; intros ?). intros h. discriminate.
Qed.

Lemma for_of_always_throws {A : Type} (body : A -> M completion) (xs : list A) (x : A) :
  In x xs ->
  always_throws (body x) ->
  (forall y h, fst (body y h) <> Ok Return) ->
  always_throws (for_of xs body).
Proof.
  intros Hin Hx Hnr. induction xs as [| y xs IH]; [destruct Hin |].
  simpl. destruct Hin as [-> | Hin].
  - now apply always_throws_bind_first.
  - intros h. unfold bind. specialize (Hnr y h).
    destruct (body y h) as [[[|] | e] h']; simpl in Hnr.
    + now apply IH.
    + congruence.
    + now exists e.
Qed.

(** X10.  When some service gives its [networks] as a mapping (the form
    [networks: {dncore_network: {...}}]) the run never returns and never
    ends with the aggregate rejection: the loop over the networks cannot
    iterate a mapping, and the call ends with a TypeError, that one or one
    raised earlier. *)
Theorem networks_in_mapping_form_end_in_TypeError
  params h cpServiceName cpService mapping :
  lookup cpServiceName (services (composeUnsafe h)) = Some cpService ->
  get cpService "networks" = VObj mapping ->
  exists e appended,
    fst (validateDappnodeCompose params h) = Throws_TypeError e appended.
Proof.
  intros Hsvc Hnet.
  set (c := composeUnsafe h). set (core := getIsCore (manifest h)).
  assert (Tsvc : always_throws (service_rules params c core cpServiceName)).
  { unfold service_rules.
    apply always_throws_bind_next; intros _.
    apply always_throws_bind_next; intros _.
    apply always_throws_bind_first.
    intros h0. exists NotIterable.
    unfold validateComposeServicesNetworks, service_of. fold c in Hsvc.
    rewrite Hsvc. unfold bind, lift. cbv zeta. rewrite Hnet. reflexivity. }
  assert (Trun : always_throws (run_rules params c core)).
  { unfold run_rules.
    apply always_throws_bind_next; intros _.
    apply always_throws_bind_next; intros _. cbv zeta.
    apply (for_of_always_throws _ _ cpServiceName).
    - change cpServiceName with (fst (cpServiceName, cpService)).
      apply in_map. now apply lookup_In.
    - exact Tsvc.
    - intros y h0. apply service_rules_never_returns. }
  unfold validateDappnodeCompose.
  change (composeUnsafe (set_errors [] h)) with c.
  change (getIsCore (manifest (set_errors [] h))) with core.
  destruct (Trun (set_errors [] h)) as (e & He).
  destruct (run_rules params c core (set_errors [] h)) as [[u | e'] h1]; simpl in He;
    [discriminate |].
  destruct (errors (aggregatedError h1)); eexists; eexists; reflexivity.
Qed.

Lemma networks_in_mapping_form_end_in_TypeError_witness :
  exists e appended,
    fst (validateDappnodeCompose dappnode_params
           (fresh_heap
              (compose_of_service "3.5"
                 [("image", VStr "app:1.0.0");
                  ("networks", VObj [("dncore_network", VObj [])])]
                 None)
              false))
    = Throws_TypeError e appended.
Proof.
  apply (networks_in_mapping_form_end_in_TypeError dappnode_params
           (fresh_heap
              (compose_of_service "3.5"
                 [("image", VStr "app:1.0.0");
                  ("networks", VObj [("dncore_network", VObj [])])]
                 None)
              false)
           "app"
           [("image", VStr "app:1.0.0"); ("networks", VObj [("dncore_network", VObj [])])]
           [("dncore_network", VObj [])]).
  - reflexivity.
  - reflexivity.
Defined.

(** ** The volume rule over a list of mount strings *)

Lemma service_volume_body_string compose isCore cpServiceName cpVolumes mount :
  volumes compose = Some cpVolumes ->
  emits (service_volume_body compose isCore cpServiceName (VStr mount)) (Ok Normal)
        (mount_report (map fst cpVolumes) isCore cpServiceName mount).
Proof.
  intros Hvol. unfold service_volume_body, mount_report. simpl truthy.
  destruct (mount =? "") eqn:Hm; simpl negb; cbv iota.
  - apply emits_ret.
  - rewrite Hvol. unfold split_colon. eapply emits_eq.
    + eapply emits_bind; [apply emits_lift |]. cbv zeta.
      eapply emits_bind; [apply emits_when_push |].
      eapply emits_bind; [apply emits_when_push | apply emits_ret].
    + simpl. now rewrite app_nil_r.
Qed.

Lemma for_of_emits_flat_map {A B : Type} (body : A -> M completion)
  (inj : B -> A) (report : B -> list Violation) (xs : list B) :
  (forall x, emits (body (inj x)) (Ok Normal) (report x)) ->
  emits (for_of (map inj xs) body) (Ok tt) (flat_map report xs).
Proof.
  intros Hbody. induction xs as [| x xs IH]; simpl.
  - apply emits_ret.
  - eapply emits_bind; [apply Hbody | exact IH].
Qed.

(** X11.  With a top-level volume mapping present, the volume rule on a
    service whose volumes are a list of strings never throws and never
    stops early: it pushes, mount after mount, what each mount yields on its
    own (nothing for an empty string; VolumeNameMissing if the first segment
    is empty; BindMountNotAllowed if the package is not core and the first
    segment is not a top-level volume).  An empty list yields nothing. *)
Theorem volumes_rule_reports_each_mount
  compose isCore cpServiceName cpService mounts cpVolumes :
  lookup cpServiceName (services compose) = Some cpService ->
  get cpService "volumes" = VArr (map VStr mounts) ->
  volumes compose = Some cpVolumes ->
  emits (validateComposeAndComposeServicesVolumes compose isCore cpServiceName) (Ok tt)
        (flat_map (mount_report (map fst cpVolumes) isCore cpServiceName) mounts).
Proof.
  intros Hsvc Hvols Htop h.
  rewrite (volumes_rule_is_loop _ _ _ _ _ Hsvc Hvols).
  apply for_of_emits_flat_map. intros mount.
  now apply service_volume_body_string.
Qed.

Lemma volumes_rule_reports_each_mount_witness :
  emits (validateComposeAndComposeServicesVolumes
           (compose_of_service "3.5"
              [("volumes", VArr [VStr "data:/data"; VStr "/etc:/host"; VStr ""; VStr ":/x"])]
              (Some [("data", VObj [])]))
           false "app")
        (Ok tt)
        [BindMountNotAllowed "app" "/etc"; VolumeNameMissing "app";
         BindMountNotAllowed "app" ""].
Proof.
  apply (volumes_rule_reports_each_mount
           (compose_of_service "3.5"
              [("volumes", VArr [VStr "data:/data"; VStr "/etc:/host"; VStr ""; VStr ":/x"])]
              (Some [("data", VObj [])]))
           false "app"
           [("volumes", VArr [VStr "data:/data"; VStr "/etc:/host"; VStr ""; VStr ":/x"])]
           ["data:/data"; "/etc:/host"; ""; ":/x"] [("data", VObj [])]).
  - reflexivity.
  - reflexivity.
  - reflexivity.
Defined.

(** ** A compose the validator accepts *)

Lemma In_lookup {A : Type} (key : string) (o : list (string * A)) :
  In key (map fst o) -> exists v, lookup key o = Some v.
Proof.
  induction o as [| [k x] o IH]; simpl; [intros [] |].
  intros [<- | H].
  - exists x. now rewrite String.eqb_refl.
  - destruct (k =? key); [now exists x | now apply IH].
Qed.

Lemma for_of_emits_nil {A : Type} (body : A -> M completion) (xs : list A) :
  (forall x, In x xs -> emits (body x) (Ok Normal) []) ->
  emits (for_of xs body) (Ok tt) [].
Proof.
  induction xs as [| x xs IH]; intros H; simpl.
  - apply emits_ret.
  - change (@nil Violation) with (@nil Violation ++ []).
    eapply emits_bind; [apply H; now left |].
    apply IH. intros y Hy. apply H. now right.
Qed.

Lemma unremarkable_service_passes params compose isCore cpServiceName cpService :
  lookup cpServiceName (services compose) = Some cpService ->
  unremarkable_service params cpService ->
  emits (service_rules params compose isCore cpServiceName) (Ok Normal) [].
Proof.
  intros Hsvc (Hkeys & Hplain & Hnet & Hvol).
  assert (Ekeys : emits (validateComposeServicesKeys params compose cpServiceName) (Ok tt) []).
  { apply emits_nil_intro. intros h.
    unfold validateComposeServicesKeys, service_of. rewrite Hsvc.
    unfold bind, lift. cbv zeta.
    assert (B : existsb (fun k => negb (includes (SAFE_KEYS params) k)) (map fst cpService)
                = false).
    { apply not_true_is_false. intros Hex.
      apply existsb_exists in Hex as (k & Hk & Hn).
      apply negb_true_iff, includes_not_In in Hn. exact (Hn (Hkeys k Hk)). }
    now rewrite B. }
  assert (Enet : emits (validateComposeServicesNetworks params compose isCore cpServiceName)
                   (Ok tt) []).
  { apply emits_nil_intro. intros h.
    unfold validateComposeServicesNetworks, service_of. rewrite Hsvc.
    unfold bind, lift. cbv zeta. now rewrite Hnet. }
  assert (Evol : emits (validateComposeAndComposeServicesVolumes compose isCore cpServiceName)
                   (Ok tt) []).
  { apply emits_nil_intro. intros h.
    unfold validateComposeAndComposeServicesVolumes, service_of. rewrite Hsvc.
    unfold bind, lift. cbv zeta. now rewrite Hvol. }
  unfold service_rules.
  change (@nil Violation) with (@nil Violation ++ ([] ++ ([] ++ ([] ++ [])))).
  eapply emits_bind; [exact Ekeys |].
  eapply emits_bind; [now apply (value_rule_skips_plain_fields _ _ _ _ cpService) |].
  eapply emits_bind; [exact Enet |].
  eapply emits_bind; [exact Evol | apply emits_ret].
Qed.

(** X12.  A compose is accepted, on a core or a non-core package, when its
    version reads major.minor and is not below the minimum, it has no
    top-level network mapping, and each service has safe keys only, scalar
    or list values, and neither networks nor volumes: the call returns and
    the collector is empty. *)
Theorem unremarkable_compose_is_accepted params h a b x y :
  major_minor (version (composeUnsafe h)) a b ->
  major_minor (MINIMUM_COMPOSE_FILE_VERSION params) x y ->
  ((a <? x) || ((a =? x) && (b <? y)))%N = false ->
  networks (composeUnsafe h) = None ->
  Forall (fun service => unremarkable_service params (snd service))
         (services (composeUnsafe h)) ->
  validateDappnodeCompose params h = (Returns, set_errors [] h).
Proof.
  intros Hv Hm Hge Hnet Hsvcs.
  set (c := composeUnsafe h) in *. set (core := getIsCore (manifest h)).
  assert (E : emits (run_rules params c core) (Ok tt) []).
  { unfold run_rules.
    change (@nil Violation) with (@nil Violation ++ ([] ++ [])).
    eapply emits_bind.
    { unfold validateComposeVersion. rewrite (lt_major_minor _ _ _ _ _ _ Hv Hm), Hge.
      change (@nil Violation) with (@nil Violation ++ []).
      eapply emits_bind; [apply emits_lift | apply emits_ret]. }
    eapply emits_bind.
    { unfold validateComposeNetworks. rewrite Hnet. apply emits_ret. }
    cbv zeta. apply for_of_emits_nil. intros cpServiceName Hname.
    destruct (In_lookup _ _ Hname) as (cpService & Hlookup).
    apply (unremarkable_service_passes _ _ _ _ cpService Hlookup).
    rewrite Forall_forall in Hsvcs.
    exact (Hsvcs _ (lookup_In _ _ _ Hlookup)). }
  now rewrite (validateDappnodeCompose_run _ _ _ _ E).
Qed.

Lemma unremarkable_compose_is_accepted_witness :
  validateDappnodeCompose dappnode_params
    (fresh_heap (compose_of_service "3.5" privileged_service None) false)
  = (Returns,
     set_errors [] (fresh_heap (compose_of_service "3.5" privileged_service None) false)).
Proof.
  apply (unremarkable_compose_is_accepted dappnode_params
           (fresh_heap (compose_of_service "3.5" privileged_service None) false) 3 5 3 4).
  - exists "3", "5". repeat split; try reflexivity; vm_compute; discriminate.
  - exists "3", "4". repeat split; try reflexivity; vm_compute; discriminate.
  - reflexivity.
  - reflexivity.
  - constructor; [| constructor]. unfold unremarkable_service. simpl.
    repeat split. intros k [<- | [<- | []]]; simpl; auto 30.
Defined.

(** ** Fields the value rule does not see *)

(** X13.  The four value checks (DNS, PID, privileged, network mode) pass
    for every service whose fields are strings, numbers, booleans or lists,
    whatever those fields are called and whatever they hold, on core and
    non-core packages: [pid: "host"] and [network_mode: "host"] set on the
    service itself are not reported. *)
Theorem scalar_fields_pass_value_rule params compose isCore cpServiceName cpService :
  lookup cpServiceName (services compose) = Some cpService ->
  forallb (fun field => is_plain (snd field)) cpService = true ->
  emits (validateComposeServicesValues params compose isCore cpServiceName) (Ok tt) [].
Proof. apply value_rule_skips_plain_fields. Qed.

Lemma scalar_fields_pass_value_rule_witness :
  emits (validateComposeServicesValues dappnode_params
           (compose_of_service "3.5"
              [("image", VStr "app:1.0.0"); ("pid", VStr "host");
               ("network_mode", VStr "host")]
              None)
           false "app")
        (Ok tt) [].
Proof.
  apply (scalar_fields_pass_value_rule dappnode_params
           (compose_of_service "3.5"
              [("image", VStr "app:1.0.0"); ("pid", VStr "host");
               ("network_mode", VStr "host")]
              None)
           false "app"
           [("image", VStr "app:1.0.0"); ("pid", VStr "host"); ("network_mode", VStr "host")]).
  - reflexivity.
  - reflexivity.
Defined.

(** ** A mount that is not a string *)

(** X14.  With a top-level volume mapping present, a mount written as a
    mapping (the long syntax, [{type: ..., source: ..., target: ...}]) makes
    the volume rule throw, since only a string can be split; what the string
    mounts before it yielded stays in the collector and the mounts after it
    are not looked at. *)
Theorem long_syntax_mount_makes_volume_rule_throw
  compose isCore cpServiceName cpService before mapping after cpVolumes :
  lookup cpServiceName (services compose) = Some cpService ->
  get cpService "volumes" = VArr (map VStr before ++ VObj mapping :: after) ->
  volumes compose = Some cpVolumes ->
  emits (validateComposeAndComposeServicesVolumes compose isCore cpServiceName)
        (Throw NotAFunction)
        (flat_map (mount_report (map fst cpVolumes) isCore cpServiceName) before).
Proof.
  intros Hsvc Hvols Htop h.
  rewrite (volumes_rule_is_loop _ _ _ _ _ Hsvc Hvols). clear Hvols. revert h.
  change (emits (for_of (map VStr before ++ VObj mapping :: after)
                   (service_volume_body compose isCore cpServiceName))
                (Throw NotAFunction)
                (flat_map (mount_report (map fst cpVolumes) isCore cpServiceName) before)).
  induction before as [| mount before IH]; simpl.
  - apply emits_bind_throw. apply emits_nil_intro. intros h.
    unfold service_volume_body. simpl. now rewrite Htop.
  - eapply emits_bind; [now apply service_volume_body_string | exact IH].
Qed.

Lemma long_syntax_mount_makes_volume_rule_throw_witness :
  emits (validateComposeAndComposeServicesVolumes
           (compose_of_service "3.5"
              [("volumes",
                VArr [VStr "/etc:/host";
                      VObj [("type", VStr "volume"); ("source", VStr "data");
                            ("target", VStr "/data")];
                      VStr ":/x"])]
              (Some [("data", VObj [])]))
           false "app")
        (Throw NotAFunction) [BindMountNotAllowed "app" "/etc"].
Proof.
  apply (long_syntax_mount_makes_volume_rule_throw
           (compose_of_service "3.5"
              [("volumes",
                VArr [VStr "/etc:/host";
                      VObj [("type", VStr "volume"); ("source", VStr "data");
                            ("target", VStr "/data")];
                      VStr ":/x"])]
              (Some [("data", VObj [])]))
           false "app"
           [("volumes",
             VArr [VStr "/etc:/host";
                   VObj [("type", VStr "volume"); ("source", VStr "data");
                         ("target", VStr "/data")];
                   VStr ":/x"])]
           ["/etc:/host"]
           [("type", VStr "volume"); ("source", VStr "data"); ("target", VStr "/data")]
           [VStr ":/x"] [("data", VObj [])]).
  - reflexivity.
  - reflexivity.
  - reflexivity.
Defined.
